(** * The texture-atlas builder [res/extract_textures.py]

    A shallow embedding of the script and its properties.  The script is one
    straight-line pass: allocate a transparent canvas, walk the slot table,
    skip the sentinel, report missing files, paste every resized tile into
    its grid cell, save the canvas.  The file system, the console and the
    canvas are threaded through a small state-and-exception monad; the
    parts of Pillow and [os.path] whose results the script never inspects
    (colour conversion, the Lanczos kernel, path joining) are fields of a
    [Platform] record. *)

From Stdlib Require Import ZArith List String Ascii Bool Lia Permutation DecimalString.
Import ListNotations.
Open Scope string_scope.
Open Scope list_scope.
Open Scope Z_scope.

(** ** Images *)

(** A pixel is the tuple of its band values; for mode RGBA that is
    [[r; g; b; a]]. *)
Definition pixel : Type := list Z.

(** A Pillow image: its mode, its [(width, height)] and its pixel data.
    [pixels im x y] is only meaningful inside the bounds; [pixel_at] is the
    bounds-checked view. *)
Record Image : Type := mkImage {
  mode : string;
  size : Z * Z;
  pixels : Z -> Z -> pixel
}.

Definition in_bounds (im : Image) (x y : Z) : bool :=
  let '(w, h) := size im in
  (0 <=? x) && (x <? w) && (0 <=? y) && (y <? h).

(** The pixel a viewer sees at [(x, y)]; there is none outside the image. *)
Definition pixel_at (im : Image) (x y : Z) : option pixel :=
  if in_bounds im x y then Some (pixels im x y) else None.

(** [Image.new(mode, size, color)]. *)
Definition Image_new (m : string) (sz : Z * Z) (color : pixel) : Image :=
  {| mode := m; size := sz; pixels := fun _ _ => color |}.

Inductive Resampling : Type :=
  NEAREST | BOX | BILINEAR | HAMMING | BICUBIC | LANCZOS.

(** What the script takes from its libraries without looking inside. *)
Record Platform : Type := mkPlatform {
  (** [os.path.join] of the running platform *)
  os_path_join : string -> string -> string;
  (** the pixel data of [im.convert(mode)] *)
  convert_data : Image -> string -> Z -> Z -> pixel;
  (** the pixel data of [im.resize(size, filter)]; floating point inside *)
  resample : Resampling -> Image -> Z * Z -> Z -> Z -> pixel
}.

(** [im.convert(mode)]: same size, new mode. *)
Definition Image_convert (P : Platform) (im : Image) (m : string) : Image :=
  {| mode := m; size := size im; pixels := convert_data P im m |}.

(** [im.resize(size, filter)]: same mode, exactly the requested size. *)
Definition Image_resize (P : Platform) (im : Image) (sz : Z * Z)
    (filter : Resampling) : Image :=
  {| mode := mode im; size := sz; pixels := resample P filter im sz |}.

(** The rectangle a [w] x [h] source occupies when pasted at [(x0, y0)]. *)
Definition in_box (x0 y0 w h x y : Z) : bool :=
  (x0 <=? x) && (x <? x0 + w) && (y0 <=? y) && (y <? y0 + h).

(** The source as [paste] copies it: converted to the destination's mode
    when the modes differ. *)
Definition coerced (P : Platform) (dst src : Image) : Image :=
  if String.eqb (mode src) (mode dst) then src
  else Image_convert P src (mode dst).

(** [dst.paste(src, (x0, y0))] without a mask: the source is copied over
    the rectangle, every band included; what falls outside the destination
    is clipped by the destination's bounds. *)
Definition Image_paste (P : Platform) (dst src : Image) (box : Z * Z) : Image :=
  let src := coerced P dst src in
  let '(x0, y0) := box in
  let '(w, h) := size src in
  {| mode := mode dst;
     size := size dst;
     pixels := fun x y =>
       if in_box x0 y0 w h x y then pixels src (x - x0) (y - y0)
       else pixels dst x y |}.

(** ** The world around the script *)

(** What a path can name: an image Pillow decodes, or anything else (a
    directory, a truncated or foreign file). *)
Inductive node : Type :=
| ImageFile (im : Image)
| Opaque.

Record filesystem : Type := mkFs {
  lookup : string -> option node;
  writable : string -> bool
}.

(** The observable actions of a run, oldest first. *)
Inductive event : Type :=
| Stat (path : string)
| Open (path : string)
| Print (line : string)
| Write (path : string) (im : Image).

Inductive exn : Type :=
| FileNotFoundError (path : string)
| UnidentifiedImageError (path : string)
| PermissionError (path : string).

(** The script's only long-lived mutable object and its effect log. *)
Record state : Type := mkState {
  atlas : Image;
  trace : list event
}.

Definition log (e : event) (st : state) : state :=
  {| atlas := atlas st; trace := trace st ++ [e] |}.

(** ** State and exceptions *)

Definition M (A : Type) : Type := state -> (exn + A) * state.

Definition ret {A : Type} (a : A) : M A := fun st => (inr a, st).

Definition bind {A B : Type} (m : M A) (k : A -> M B) : M B :=
  fun st =>
    match m st with
    | (inr a, st') => k a st'
    | (inl e, st') => (inl e, st')
    end.

Definition raise {A : Type} (e : exn) : M A := fun st => (inl e, st).

Declare Scope builder_scope.
Delimit Scope builder_scope with builder.
Notation "x <- m ;; k" := (bind m (fun x => k))
  (at level 100, m at next level, right associativity) : builder_scope.
Notation "m ;; k" := (bind m (fun _ => k))
  (at level 100, right associativity) : builder_scope.

(** [for x in l: body(x)] *)
Fixpoint for_each {A : Type} (body : A -> M unit) (l : list A) : M unit :=
  match l with
  | [] => ret tt
  | x :: rest => (body x ;; for_each body rest)%builder
  end.

Definition emit (e : event) : M unit := fun st => (inr tt, log e st).

(** [os.path.exists(path)] *)
Definition os_path_exists (fs : filesystem) (path : string) : M bool :=
  (emit (Stat path) ;;
   ret (match lookup fs path with Some _ => true | None => false end))%builder.

(** [Image.open(path)] followed by the first access to its data. *)
Definition Image_open (fs : filesystem) (path : string) : M Image :=
  (emit (Open path) ;;
   match lookup fs path with
   | Some (ImageFile im) => ret im
   | Some Opaque => raise (UnidentifiedImageError path)
   | None => raise (FileNotFoundError path)
   end)%builder.

Definition print (line : string) : M unit := emit (Print line).

(** [atlas.paste(texture, box)]: the canvas is updated in place. *)
Definition atlas_paste (P : Platform) (texture : Image) (box : Z * Z) : M unit :=
  fun st =>
    (inr tt, {| atlas := Image_paste P (atlas st) texture box;
                trace := trace st |}).

(** [atlas.save(path)] *)
Definition atlas_save (fs : filesystem) (path : string) : M unit :=
  fun st =>
    if writable fs path then emit (Write path (atlas st)) st
    else raise (PermissionError path) st.

(** ** The script *)

Definition TILES_DIR : string :=
  "C:\Users\natha\dev\CPP\GPUProgramming\Renderer\res\kenney_voxel-pack\PNG\Tiles".
Definition TEXTURE_SIZE : Z := 16.
Definition ATLAS_SIZE : Z := 256.

(** The dict literal, in insertion order (the order [items()] yields). *)
Definition TEXTURE_MAP : list (string * Z) :=
  [ ("air", 0); ("greystone", 1); ("dirt", 2); ("grass_top", 3);
    ("dirt_grass", 4); ("sand", 5); ("water", 6); ("trunk_top", 7);
    ("trunk_side", 8); ("leaves", 9); ("glass", 10); ("stone", 11);
    ("wood", 12); ("rock", 13); ("gravel_stone", 14); ("brick_red", 15);
    ("snow", 16); ("ice", 17) ].

Definition textures_per_row : Z := ATLAS_SIZE / TEXTURE_SIZE.

(** [str(n)] as an f-string renders an int. *)
Definition str (n : Z) : string := NilZero.string_of_int (Z.to_int n).

(** [os.path.join(TILES_DIR, f'{name}.png')] *)
Definition tile_path (P : Platform) (name : string) : string :=
  os_path_join P TILES_DIR (name ++ ".png")%string.

(** [row, col = index // textures_per_row, index % textures_per_row] *)
Definition cell (index : Z) : Z * Z :=
  (index / textures_per_row, index mod textures_per_row).

(** [Image.open(path).convert('RGBA').resize((TEXTURE_SIZE, TEXTURE_SIZE),
    Image.LANCZOS)] once the file is decoded. *)
Definition texture_of (P : Platform) (im : Image) : Image :=
  Image_resize P (Image_convert P im "RGBA") (TEXTURE_SIZE, TEXTURE_SIZE) LANCZOS.

(** The pixel offset handed to [paste]. *)
Definition paste_box (index : Z) : Z * Z :=
  let '(row, col) := cell index in
  (col * TEXTURE_SIZE, row * TEXTURE_SIZE).

(** One iteration of the loop. *)
Definition process_entry (P : Platform) (fs : filesystem)
    (entry : string * Z) : M unit :=
  let '(name, index) := entry in
  if String.eqb name "air" then ret tt
  else
    let path := tile_path P name in
    (present <- os_path_exists fs path ;;
     if negb present then print ("Missing: " ++ name)%string
     else
       im <- Image_open fs path ;;
       let texture := texture_of P im in
       let '(row, col) := cell index in
       atlas_paste P texture (col * TEXTURE_SIZE, row * TEXTURE_SIZE) ;;
       print ("Added " ++ name ++ " at index " ++ str index)%string)%builder.

Definition OUTPUT : string := "kenney_voxel_atlas.png".

Definition newline : string := String (ascii_of_nat 10) "".

(** The canvas of line 21. *)
Definition blank_atlas : Image :=
  Image_new "RGBA" (ATLAS_SIZE, ATLAS_SIZE) [0; 0; 0; 0].

Definition initial : state := {| atlas := blank_atlas; trace := [] |}.

(** The body of [__main__] over a given slot table. *)
Definition build (P : Platform) (fs : filesystem) (table : list (string * Z))
    : M unit :=
  (for_each (process_entry P fs) table ;;
   atlas_save fs OUTPUT ;;
   print (newline ++ "Atlas saved: kenney_voxel_atlas.png ("
            ++ str ATLAS_SIZE ++ "x" ++ str ATLAS_SIZE ++ ")")%string)%builder.

(** A whole run over a table, from the freshly allocated canvas. *)
Definition run (P : Platform) (fs : filesystem) (table : list (string * Z))
    : (exn + unit) * state :=
  build P fs table initial.

(** The script as shipped. *)
Definition main (P : Platform) (fs : filesystem) : (exn + unit) * state :=
  run P fs TEXTURE_MAP.

(** ** Observations *)

Definition transparent : pixel := [0; 0; 0; 0].

(** The image the run left on disk: the last [Write] of its trace. *)
Fixpoint saved (tr : list event) : option Image :=
  match tr with
  | [] => None
  | Write _ im :: rest =>
      match saved rest with Some later => Some later | None => Some im end
  | _ :: rest => saved rest
  end.

Definition output (r : (exn + unit) * state) : option Image :=
  saved (trace (snd r)).

(** What the run printed, line by line. *)
Definition console (r : (exn + unit) * state) : list string :=
  flat_map (fun e => match e with Print line => [line] | _ => [] end)
           (trace (snd r)).

(** The canvas as the run left it in memory. *)
Definition final_atlas (r : (exn + unit) * state) : Image := atlas (snd r).

(** Two images a viewer cannot tell apart. *)
Definition same_pixels (a b : Image) : Prop :=
  size a = size b /\ forall x y, pixel_at a x y = pixel_at b x y.

Definition same_output (o1 o2 : option Image) : Prop :=
  match o1, o2 with
  | Some a, Some b => same_pixels a b
  | None, None => True
  | _, _ => False
  end.

(** The slot-table invariant of the data model. *)
Definition in_range (index : Z) : Prop :=
  0 <= index < textures_per_row * textures_per_row.

Definition table_invariant (table : list (string * Z)) : Prop :=
  NoDup (map snd table) /\ Forall (fun entry => in_range (snd entry)) table.

(** The pixels of grid cell [index]. *)
Definition in_cell (index x y : Z) : bool :=
  let '(x0, y0) := paste_box index in
  in_box x0 y0 TEXTURE_SIZE TEXTURE_SIZE x y.

(** How the loop treats an entry, read off the file system. *)
Definition is_sentinel (entry : string * Z) : bool := String.eqb (fst entry) "air".

Definition placed (P : Platform) (fs : filesystem) (entry : string * Z) : bool :=
  negb (is_sentinel entry) &&
  match lookup fs (tile_path P (fst entry)) with
  | Some (ImageFile _) => true
  | _ => false
  end.

Definition broken (P : Platform) (fs : filesystem) (entry : string * Z) : bool :=
  negb (is_sentinel entry) &&
  match lookup fs (tile_path P (fst entry)) with
  | Some Opaque => true
  | _ => false
  end.

(** The tiles a crash-free loop pastes, with their slots, in table order. *)
Definition tiles (P : Platform) (fs : filesystem) (table : list (string * Z))
    : list (Z * Image) :=
  flat_map (fun entry =>
    if is_sentinel entry then []
    else match lookup fs (tile_path P (fst entry)) with
         | Some (ImageFile im) => [(snd entry, texture_of P im)]
         | _ => []
         end) table.

Definition paste_tile (P : Platform) (canvas : Image) (tile : Z * Image) : Image :=
  Image_paste P canvas (snd tile) (paste_box (fst tile)).

(** The four ways an iteration can go. *)
Inductive step_kind (P : Platform) (fs : filesystem) (entry : string * Z)
    (st : state) : (exn + unit) * state -> Prop :=
| kind_sentinel : fst entry = "air" -> step_kind P fs entry st (inr tt, st)
| kind_missing :
    fst entry <> "air" ->
    lookup fs (tile_path P (fst entry)) = None ->
    step_kind P fs entry st
      (inr tt, {| atlas := atlas st;
                  trace := trace st ++ [Stat (tile_path P (fst entry));
                                        Print ("Missing: " ++ fst entry)%string] |})
| kind_placed (im : Image) :
    fst entry <> "air" ->
    lookup fs (tile_path P (fst entry)) = Some (ImageFile im) ->
    step_kind P fs entry st
      (inr tt, {| atlas := paste_tile P (atlas st) (snd entry, texture_of P im);
                  trace := trace st ++
                    [Stat (tile_path P (fst entry)); Open (tile_path P (fst entry));
                     Print ("Added " ++ fst entry ++ " at index "
                              ++ str (snd entry))%string] |})
| kind_broken :
    fst entry <> "air" ->
    lookup fs (tile_path P (fst entry)) = Some Opaque ->
    step_kind P fs entry st
      (inl (UnidentifiedImageError (tile_path P (fst entry))),
       {| atlas := atlas st;
          trace := trace st ++ [Stat (tile_path P (fst entry));
                                Open (tile_path P (fst entry))] |}).

(** Images equal as data, the pixel function compared pointwise. *)
Definition img_eq (a b : Image) : Prop :=
  mode a = mode b /\ size a = size b /\ forall x y, pixels a x y = pixels b x y.

(** Which entry an event of the trace is due to. *)
Definition summary_line : string :=
  (newline ++ "Atlas saved: kenney_voxel_atlas.png ("
     ++ str ATLAS_SIZE ++ "x" ++ str ATLAS_SIZE ++ ")")%string.

Definition due_to (P : Platform) (entry : string * Z) (e : event) : Prop :=
  let '(name, index) := entry in
  e = Stat (tile_path P name) \/ e = Open (tile_path P name) \/
  e = Print ("Missing: " ++ name)%string \/
  e = Print ("Added " ++ name ++ " at index " ++ str index)%string.

Definition accounted (P : Platform) (table : list (string * Z)) (e : event) : Prop :=
  (exists entry, In entry table /\ fst entry <> "air" /\ due_to P entry e) \/
  (exists im, e = Write OUTPUT im) \/ e = Print summary_line.

(** Two file systems the loop cannot tell apart: the same node under
    every tile path of the table, the same permission on the output. *)
Definition same_sources (P : Platform) (table : list (string * Z))
    (fs1 fs2 : filesystem) : Prop :=
  (forall entry, In entry table ->
     lookup fs1 (tile_path P (fst entry)) = lookup fs2 (tile_path P (fst entry))) /\
  writable fs1 OUTPUT = writable fs2 OUTPUT.

(** The file system a run leaves behind: its writes applied in order. *)
Definition commit (fs : filesystem) (e : event) : filesystem :=
  match e with
  | Write path im =>
      {| lookup := fun q => if String.eqb q path then Some (ImageFile im)
                            else lookup fs q;
         writable := writable fs |}
  | _ => fs
  end.

Definition fs_after (fs : filesystem) (r : (exn + unit) * state) : filesystem :=
  fold_left commit (trace (snd r)) fs.

(** The events one iteration adds to the trace, read off the file
    system: nothing for the sentinel, a check and a diagnostic for a
    missing file, a check, an open and a diagnostic for a placed tile, a
    check and the failed open for an undecodable file. *)
Definition entry_events (P : Platform) (fs : filesystem) (entry : string * Z)
    : list event :=
  if is_sentinel entry then []
  else
    let path := tile_path P (fst entry) in
    match lookup fs path with
    | None => [Stat path; Print ("Missing: " ++ fst entry)%string]
    | Some (ImageFile _) =>
        [Stat path; Open path;
         Print ("Added " ++ fst entry ++ " at index " ++ str (snd entry))%string]
    | Some Opaque => [Stat path; Open path]
    end.

(** The lines among a list of events. *)
Definition lines (tr : list event) : list string :=
  flat_map (fun e => match e with Print line => [line] | _ => [] end) tr.

(** The slot whose cell holds pixel [(x, y)]. *)
Definition slot_of_pixel (x y : Z) : Z :=
  (y / TEXTURE_SIZE) * textures_per_row + x / TEXTURE_SIZE.

(** ** A sample world

    Windows path joining for relative components, an identity colour
    conversion, nearest-neighbour sampling in place of the Lanczos kernel,
    and a tile directory holding a 128 x 128 [dirt.png] next to an
    undecodable [stone.png]. *)

Definition sample_platform : Platform :=
  {| os_path_join := fun a b => (a ++ "\" ++ b)%string;
     convert_data := fun im _ => pixels im;
     resample := fun _ im sz x y =>
       pixels im (x * fst (size im) / fst sz) (y * snd (size im) / snd sz) |}.

Definition dirt_png : Image :=
  {| mode := "RGBA"; size := (128, 128);
     pixels := fun x y => [x mod 256; y mod 256; 90; 255] |}.

Definition sample_fs : filesystem :=
  {| lookup := fun path =>
       if String.eqb path (tile_path sample_platform "dirt")
       then Some (ImageFile dirt_png) else None;
     writable := fun _ => true |}.

Definition sand_png : Image :=
  {| mode := "RGBA"; size := (64, 64);
     pixels := fun x y => [200; 180; (x + y) mod 256; 255] |}.

(** The tile directory with a second texture, [sand.png]. *)
Definition two_tiles_fs : filesystem :=
  {| lookup := fun path =>
       if String.eqb path (tile_path sample_platform "sand")
       then Some (ImageFile sand_png) else lookup sample_fs path;
     writable := fun _ => true |}.


Definition empty_fs : filesystem :=
  {| lookup := fun _ => None; writable := fun _ => true |}.

Definition sample_fs_with_junk : filesystem :=
  {| lookup := fun path =>
       if String.eqb path (tile_path sample_platform "stone")
       then Some Opaque else lookup sample_fs path;
     writable := fun _ => true |}.

(** * Properties *)

(** ** Cell arithmetic *)

Lemma textures_per_row_value : textures_per_row = 16.
Proof. reflexivity. Qed.

Lemma cell_div_mod (index : Z) :
  fst (cell index) * textures_per_row + snd (cell index) = index.
Proof.
  unfold cell; simpl fst; simpl snd.
  rewrite Z.mul_comm.
  symmetry; apply Z.div_mod.
  rewrite textures_per_row_value; discriminate.
Qed.

Lemma cell_col_range (index : Z) : 0 <= snd (cell index) < textures_per_row.
Proof.
  unfold cell; simpl snd.
  apply Z.mod_pos_bound. rewrite textures_per_row_value. lia.
Qed.

Lemma cell_row_range (index : Z) :
  in_range index -> 0 <= fst (cell index) < textures_per_row.
Proof.
  unfold in_range, cell; simpl fst.
  rewrite textures_per_row_value. intros H.
  split.
  - apply Z.div_pos; lia.
  - apply Z.div_lt_upper_bound; lia.
Qed.

Lemma paste_box_eq (index : Z) :
  paste_box index = (snd (cell index) * TEXTURE_SIZE, fst (cell index) * TEXTURE_SIZE).
Proof. reflexivity. Qed.

Lemma in_box_true (x0 y0 w h x y : Z) :
  in_box x0 y0 w h x y = true <-> x0 <= x < x0 + w /\ y0 <= y < y0 + h.
Proof.
  unfold in_box. rewrite !andb_true_iff, !Z.leb_le, !Z.ltb_lt. lia.
Qed.

Lemma in_cell_true (index x y : Z) :
  in_cell index x y = true <->
  snd (cell index) * TEXTURE_SIZE <= x < snd (cell index) * TEXTURE_SIZE + TEXTURE_SIZE /\
  fst (cell index) * TEXTURE_SIZE <= y < fst (cell index) * TEXTURE_SIZE + TEXTURE_SIZE.
Proof. unfold in_cell. rewrite paste_box_eq. apply in_box_true. Qed.

(** A pixel lies in at most one cell. *)
Lemma in_cell_inj (i j x y : Z) :
  in_cell i x y = true -> in_cell j x y = true -> i = j.
Proof.
  rewrite !in_cell_true. intros [Hx Hy] [Hx' Hy'].
  pose proof (cell_div_mod i) as Hi. pose proof (cell_div_mod j) as Hj.
  pose proof (cell_col_range i) as Ci. pose proof (cell_col_range j) as Cj.
  rewrite textures_per_row_value in *. unfold TEXTURE_SIZE in *.
  assert (snd (cell i) = snd (cell j)) by lia.
  assert (fst (cell i) = fst (cell j)) by lia.
  lia.
Qed.

(** The cell of an index of the table's range lies inside the canvas. *)
Lemma cell_inside (index : Z) :
  in_range index ->
  0 <= fst (paste_box index) /\
  fst (paste_box index) + TEXTURE_SIZE <= ATLAS_SIZE /\
  0 <= snd (paste_box index) /\
  snd (paste_box index) + TEXTURE_SIZE <= ATLAS_SIZE.
Proof.
  intros H. rewrite paste_box_eq; cbn [fst snd].
  pose proof (cell_row_range index H) as R.
  pose proof (cell_col_range index) as C.
  rewrite textures_per_row_value in *. unfold TEXTURE_SIZE, ATLAS_SIZE. lia.
Qed.

(** ** Pasting *)

Lemma size_coerced (P : Platform) (dst src : Image) :
  size (coerced P dst src) = size src.
Proof. unfold coerced. destruct (String.eqb _ _); reflexivity. Qed.

Lemma coerced_same_mode (P : Platform) (dst src : Image) :
  mode src = mode dst -> coerced P dst src = src.
Proof. intros H. unfold coerced. rewrite H, String.eqb_refl. reflexivity. Qed.

Lemma size_paste (P : Platform) (dst src : Image) (box : Z * Z) :
  size (Image_paste P dst src box) = size dst.
Proof.
  unfold Image_paste. destruct box as [x0 y0].
  destruct (size (coerced P dst src)); reflexivity.
Qed.

Lemma mode_paste (P : Platform) (dst src : Image) (box : Z * Z) :
  mode (Image_paste P dst src box) = mode dst.
Proof.
  unfold Image_paste. destruct box as [x0 y0].
  destruct (size (coerced P dst src)); reflexivity.
Qed.

Lemma pixels_paste (P : Platform) (dst src : Image) (x0 y0 x y : Z) :
  pixels (Image_paste P dst src (x0, y0)) x y =
  if in_box x0 y0 (fst (size src)) (snd (size src)) x y
  then pixels (coerced P dst src) (x - x0) (y - y0)
  else pixels dst x y.
Proof.
  unfold Image_paste. rewrite <- (size_coerced P dst src).
  destruct (size (coerced P dst src)); reflexivity.
Qed.

Lemma size_texture_of (P : Platform) (im : Image) :
  size (texture_of P im) = (TEXTURE_SIZE, TEXTURE_SIZE).
Proof. reflexivity. Qed.

Lemma mode_texture_of (P : Platform) (im : Image) :
  mode (texture_of P im) = "RGBA".
Proof. reflexivity. Qed.

(** Pasting a tile-sized image at a slot rewrites the slot's cell and
    nothing else. *)
Lemma pixels_paste_tile (P : Platform) (canvas : Image) (tile : Z * Image) (x y : Z) :
  size (snd tile) = (TEXTURE_SIZE, TEXTURE_SIZE) ->
  pixels (paste_tile P canvas tile) x y =
  if in_cell (fst tile) x y
  then pixels (coerced P canvas (snd tile))
         (x - fst (paste_box (fst tile))) (y - snd (paste_box (fst tile)))
  else pixels canvas x y.
Proof.
  intros Hs. unfold paste_tile, in_cell.
  destruct (paste_box (fst tile)) as [x0 y0].
  rewrite pixels_paste, Hs. reflexivity.
Qed.

Lemma img_eq_refl (a : Image) : img_eq a a.
Proof. repeat split. Qed.

Lemma img_eq_trans (a b c : Image) : img_eq a b -> img_eq b c -> img_eq a c.
Proof.
  intros (M1 & S1 & L1) (M2 & S2 & L2).
  split; [congruence|split; [congruence|]].
  intros x y. rewrite L1. apply L2.
Qed.

Lemma img_eq_same_pixels (a b : Image) : img_eq a b -> same_pixels a b.
Proof.
  intros (_ & S & L). split; [exact S|].
  intros x y. unfold pixel_at, in_bounds. rewrite S, L. reflexivity.
Qed.

Lemma paste_tile_img_eq (P : Platform) (a b : Image) (tile : Z * Image) :
  img_eq a b -> img_eq (paste_tile P a tile) (paste_tile P b tile).
Proof.
  intros (Hm & Hs & Hl). unfold paste_tile.
  destruct (paste_box (fst tile)) as [x0 y0].
  repeat split.
  - rewrite !mode_paste. exact Hm.
  - rewrite !size_paste. exact Hs.
  - intros x y. rewrite !pixels_paste. unfold coerced. rewrite Hm, Hl. reflexivity.
Qed.

Lemma fold_paste_img_eq (P : Platform) (l : list (Z * Image)) :
  forall a b, img_eq a b ->
  img_eq (fold_left (paste_tile P) l a) (fold_left (paste_tile P) l b).
Proof.
  induction l as [|t l IH]; intros a b H; simpl; [exact H|].
  apply IH, paste_tile_img_eq, H.
Qed.

(** Tiles of different slots can be pasted in either order. *)
Lemma paste_tile_swap (P : Platform) (a : Image) (s t : Z * Image) :
  size (snd s) = (TEXTURE_SIZE, TEXTURE_SIZE) ->
  size (snd t) = (TEXTURE_SIZE, TEXTURE_SIZE) ->
  fst s <> fst t ->
  img_eq (paste_tile P (paste_tile P a s) t) (paste_tile P (paste_tile P a t) s).
Proof.
  intros Hs Ht Hne. repeat split.
  - unfold paste_tile. rewrite !mode_paste. reflexivity.
  - unfold paste_tile. rewrite !size_paste. reflexivity.
  - intros x y. rewrite !pixels_paste_tile by assumption.
    unfold coerced, paste_tile. rewrite !mode_paste.
    destruct (in_cell (fst t) x y) eqn:Et, (in_cell (fst s) x y) eqn:Es;
      try reflexivity.
    exfalso. apply Hne. eapply in_cell_inj; eassumption.
Qed.

(** ** One iteration *)

Section Iteration.
Variable P : Platform.
Variable fs : filesystem.

Lemma not_sentinel (name : string) (index : Z) :
  name <> "air" -> is_sentinel (name, index) = false.
Proof. intros H. unfold is_sentinel; simpl. apply String.eqb_neq, H. Qed.

Lemma step_sentinel (index : Z) (st : state) :
  process_entry P fs ("air", index) st = (inr tt, st).
Proof. reflexivity. Qed.

Lemma step_missing (name : string) (index : Z) (st : state) :
  name <> "air" ->
  lookup fs (tile_path P name) = None ->
  process_entry P fs (name, index) st =
  (inr tt, {| atlas := atlas st;
              trace := trace st ++ [Stat (tile_path P name);
                                    Print ("Missing: " ++ name)%string] |}).
Proof.
  intros Hn Hl. unfold process_entry.
  apply String.eqb_neq in Hn. rewrite Hn.
  unfold bind, os_path_exists, print, emit, ret, log. rewrite Hl. simpl.
  rewrite <- app_assoc. reflexivity.
Qed.

Lemma step_placed (name : string) (index : Z) (im : Image) (st : state) :
  name <> "air" ->
  lookup fs (tile_path P name) = Some (ImageFile im) ->
  process_entry P fs (name, index) st =
  (inr tt, {| atlas := Image_paste P (atlas st) (texture_of P im) (paste_box index);
              trace := trace st ++
                [Stat (tile_path P name); Open (tile_path P name);
                 Print ("Added " ++ name ++ " at index " ++ str index)%string] |}).
Proof.
  intros Hn Hl. unfold process_entry.
  apply String.eqb_neq in Hn. rewrite Hn.
  unfold bind, os_path_exists, Image_open, atlas_paste, print, emit, ret, log.
  rewrite Hl. simpl. rewrite <- !app_assoc. reflexivity.
Qed.

Lemma step_broken (name : string) (index : Z) (st : state) :
  name <> "air" ->
  lookup fs (tile_path P name) = Some Opaque ->
  process_entry P fs (name, index) st =
  (inl (UnidentifiedImageError (tile_path P name)),
   {| atlas := atlas st;
      trace := trace st ++ [Stat (tile_path P name); Open (tile_path P name)] |}).
Proof.
  intros Hn Hl. unfold process_entry.
  apply String.eqb_neq in Hn. rewrite Hn.
  unfold bind, os_path_exists, Image_open, emit, ret, raise, log.
  rewrite Hl. simpl. rewrite <- !app_assoc. reflexivity.
Qed.

Lemma step_cases (entry : string * Z) (st : state) :
  step_kind P fs entry st (process_entry P fs entry st).
Proof.
  destruct entry as [name index].
  destruct (String.eqb_spec name "air") as [->|Hn].
  - rewrite step_sentinel. now constructor.
  - destruct (lookup fs (tile_path P name)) as [[im|]|] eqn:Hl.
    + rewrite (step_placed name index im st Hn Hl).
      now apply (kind_placed P fs (name, index) st im).
    + rewrite (step_broken name index st Hn Hl).
      now apply (kind_broken P fs (name, index) st).
    + rewrite (step_missing name index st Hn Hl).
      now apply (kind_missing P fs (name, index) st).
Qed.

(** ** The loop *)

(** A property of the state that every iteration keeps is kept by the
    loop, crash or no crash. *)
Lemma for_each_keeps (I : state -> Prop) (table : list (string * Z)) :
  (forall entry st, In entry table -> I st ->
     I (snd (process_entry P fs entry st))) ->
  forall st, I st -> I (snd (for_each (process_entry P fs) table st)).
Proof.
  induction table as [|entry rest IH]; intros Hstep st HI; simpl; [exact HI|].
  unfold bind.
  pose proof (Hstep entry st (or_introl eq_refl) HI) as H1.
  destruct (process_entry P fs entry st) as [[e|[]] st1]; simpl in *.
  - exact H1.
  - apply IH; [|exact H1].
    intros entry' st' Hin. apply Hstep. right; exact Hin.
Qed.

(** With no undecodable file in the way the loop runs to its end and
    the canvas is the fold of the pastes. *)
Lemma loop_completes (table : list (string * Z)) :
  existsb (broken P fs) table = false ->
  forall st,
    fst (for_each (process_entry P fs) table st) = inr tt /\
    atlas (snd (for_each (process_entry P fs) table st)) =
      fold_left (paste_tile P) (tiles P fs table) (atlas st).
Proof.
  induction table as [|entry rest IH]; intros Hb st; simpl; [split; reflexivity|].
  simpl in Hb. apply orb_false_iff in Hb as [Hb1 Hb2].
  unfold bind. unfold broken, is_sentinel in Hb1.
  unfold tiles; simpl flat_map; fold (tiles P fs rest). unfold is_sentinel.
  destruct (step_cases entry st) as [Ha|Hn Hl|im Hn Hl|Hn Hl].
  - rewrite Ha. simpl. apply (IH Hb2 st).
  - apply String.eqb_neq in Hn. rewrite Hn, Hl. simpl.
    apply (IH Hb2 (mkState _ _)).
  - apply String.eqb_neq in Hn. rewrite Hn, Hl. simpl.
    apply (IH Hb2 (mkState _ _)).
  - apply String.eqb_neq in Hn. rewrite Hn, Hl in Hb1. discriminate.
Qed.

(** An undecodable file stops the loop with an exception. *)
Lemma loop_crashes (table : list (string * Z)) :
  existsb (broken P fs) table = true ->
  forall st, exists e, fst (for_each (process_entry P fs) table st) = inl e.
Proof.
  induction table as [|entry rest IH]; intros Hb st; simpl in *; [discriminate|].
  unfold bind.
  destruct (step_cases entry st) as [Ha|Hn Hl|im Hn Hl|Hn Hl].
  - unfold broken, is_sentinel in Hb. rewrite Ha in Hb. simpl in Hb.
    apply IH, Hb.
  - unfold broken in Hb at 1. rewrite Hl, andb_false_r in Hb. apply IH, Hb.
  - unfold broken in Hb at 1. rewrite Hl, andb_false_r in Hb. apply IH, Hb.
  - eexists; reflexivity.
Qed.
End Iteration.

(** ** A whole run *)

Lemma saved_app (tr more : list event) :
  saved (tr ++ more) =
  match saved more with Some im => Some im | None => saved tr end.
Proof.
  induction tr as [|e tr IH]; simpl.
  - destruct (saved more); reflexivity.
  - destruct e; rewrite ?IH; try reflexivity.
    destruct (saved more); [reflexivity|]. destruct (saved tr); reflexivity.
Qed.

Section Run.
Variable P : Platform.
Variable fs : filesystem.

Lemma run_unfold (table : list (string * Z)) :
  run P fs table =
  match for_each (process_entry P fs) table initial with
  | (inr _, st) =>
      if writable fs OUTPUT
      then (inr tt, {| atlas := atlas st;
                       trace := trace st ++ [Write OUTPUT (atlas st);
                                             Print summary_line] |})
      else (inl (PermissionError OUTPUT), st)
  | (inl e, st) => (inl e, st)
  end.
Proof.
  unfold run, build, bind, atlas_save, print, emit, raise, log.
  destruct (for_each (process_entry P fs) table initial) as [[e|[]] st];
    [reflexivity|].
  destruct (writable fs OUTPUT); [|reflexivity].
  simpl. rewrite <- app_assoc. reflexivity.
Qed.

(** Saving and the closing message leave the canvas alone. *)
Lemma final_atlas_loop (table : list (string * Z)) :
  final_atlas (run P fs table) =
  atlas (snd (for_each (process_entry P fs) table initial)).
Proof.
  unfold final_atlas. rewrite run_unfold.
  destruct (for_each (process_entry P fs) table initial) as [[e|[]] st];
    [reflexivity|].
  destruct (writable fs OUTPUT); reflexivity.
Qed.

(** A property of the canvas that holds of the blank canvas and that
    every iteration keeps holds of the final canvas. *)
Lemma final_atlas_keeps (I : Image -> Prop) (table : list (string * Z)) :
  I blank_atlas ->
  (forall entry st, In entry table -> I (atlas st) ->
     I (atlas (snd (process_entry P fs entry st)))) ->
  I (final_atlas (run P fs table)).
Proof.
  intros H0 Hstep. rewrite final_atlas_loop.
  apply (for_each_keeps P fs (fun st => I (atlas st))); assumption.
Qed.

Lemma loop_writes_nothing (table : list (string * Z)) (st : state) :
  saved (trace st) = None ->
  saved (trace (snd (for_each (process_entry P fs) table st))) = None.
Proof.
  apply (for_each_keeps P fs (fun s => saved (trace s) = None)).
  intros entry s _ Hs.
  destruct (step_cases P fs entry s); simpl; rewrite ?saved_app, ?Hs;
    reflexivity.
Qed.

(** What a run leaves on disk. *)
Lemma output_run (table : list (string * Z)) :
  output (run P fs table) =
  if existsb (broken P fs) table then None
  else if writable fs OUTPUT
       then Some (fold_left (paste_tile P) (tiles P fs table) blank_atlas)
       else None.
Proof.
  unfold output. rewrite run_unfold.
  pose proof (loop_writes_nothing table initial eq_refl) as Hw.
  destruct (existsb (broken P fs) table) eqn:Hb.
  - destruct (loop_crashes P fs table Hb initial) as [e He].
    destruct (for_each (process_entry P fs) table initial) as [[e'|[]] st];
      simpl in *; [exact Hw|discriminate].
  - destruct (loop_completes P fs table Hb initial) as [Hok Hat].
    destruct (for_each (process_entry P fs) table initial) as [[e'|[]] st];
      simpl in *; [discriminate|].
    destruct (writable fs OUTPUT); simpl; [|exact Hw].
    rewrite saved_app. simpl. rewrite Hat. reflexivity.
Qed.

(** When a run ends without an exception. *)
Lemma run_succeeds (table : list (string * Z)) :
  existsb (broken P fs) table = false ->
  writable fs OUTPUT = true ->
  fst (run P fs table) = inr tt.
Proof.
  intros Hb Hw. rewrite run_unfold.
  destruct (loop_completes P fs table Hb initial) as [Hok _].
  destruct (for_each (process_entry P fs) table initial) as [[e'|[]] st];
    simpl in *; [discriminate|].
  rewrite Hw. reflexivity.
Qed.

(** The canvas never changes its size or mode. *)
Lemma final_atlas_size (table : list (string * Z)) :
  size (final_atlas (run P fs table)) = (ATLAS_SIZE, ATLAS_SIZE).
Proof.
  apply (final_atlas_keeps (fun a => size a = (ATLAS_SIZE, ATLAS_SIZE)));
    [reflexivity|].
  intros entry st _ Hs.
  destruct (step_cases P fs entry st); simpl; try exact Hs.
  unfold paste_tile. rewrite size_paste. exact Hs.
Qed.

Lemma final_atlas_mode (table : list (string * Z)) :
  mode (final_atlas (run P fs table)) = "RGBA".
Proof.
  apply (final_atlas_keeps (fun a => mode a = "RGBA")); [reflexivity|].
  intros entry st _ Hs.
  destruct (step_cases P fs entry st); simpl; try exact Hs.
  unfold paste_tile. rewrite mode_paste. exact Hs.
Qed.

(** A pixel that no pasted tile covers keeps the canvas's initial
    colour. *)
Lemma uncovered_pixel (table : list (string * Z)) (x y : Z) :
  (forall entry, In entry table -> placed P fs entry = true ->
     in_cell (snd entry) x y = false) ->
  pixels (final_atlas (run P fs table)) x y = transparent.
Proof.
  intros Hfree.
  apply (final_atlas_keeps (fun a => pixels a x y = transparent));
    [reflexivity|].
  intros entry st Hin Hs.
  destruct (step_cases P fs entry st) as [Ha|Hn Hl|im Hn Hl|Hn Hl];
    simpl; try exact Hs.
  rewrite pixels_paste_tile by reflexivity. simpl fst.
  rewrite (Hfree entry Hin); [exact Hs|].
  unfold placed, is_sentinel. apply String.eqb_neq in Hn.
  rewrite Hn, Hl. reflexivity.
Qed.

Lemma pixel_at_final (table : list (string * Z)) (x y : Z) :
  in_bounds blank_atlas x y = true ->
  pixel_at (final_atlas (run P fs table)) x y =
  Some (pixels (final_atlas (run P fs table)) x y).
Proof.
  intros Hb. unfold pixel_at, in_bounds in *.
  rewrite final_atlas_size. simpl in Hb. rewrite Hb. reflexivity.
Qed.

(** Every event of a run is the closing save or message, or is due to
    a table entry other than the sentinel. *)
Lemma trace_accounted (table : list (string * Z)) :
  Forall (accounted P table) (trace (snd (run P fs table))).
Proof.
  assert (Hloop : Forall (accounted P table)
            (trace (snd (for_each (process_entry P fs) table initial)))).
  { apply (for_each_keeps P fs (fun s => Forall (accounted P table) (trace s)));
      [|constructor].
    intros entry st Hin Hs.
    assert (Hdue : forall e, fst entry <> "air" -> due_to P entry e ->
                             accounted P table e).
    { intros e Hn Hd. left. exists entry. auto. }
    destruct entry as [name index].
    destruct (step_cases P fs (name, index) st) as [Ha|Hn Hl|im Hn Hl|Hn Hl];
      simpl in *; try exact Hs;
      apply Forall_app; split; try exact Hs;
      repeat (constructor; [apply Hdue; [exact Hn|unfold due_to; tauto]|]);
      constructor. }
  rewrite run_unfold.
  destruct (for_each (process_entry P fs) table initial) as [[e|[]] st];
    simpl in *; [exact Hloop|].
  destruct (writable fs OUTPUT); simpl; [|exact Hloop].
  apply Forall_app; split; [exact Hloop|].
  constructor; [right; left; eexists; reflexivity|].
  constructor; [right; right; reflexivity|constructor].
Qed.
End Run.

(** ** Reordering the table *)

Lemma existsb_permutation {A : Type} (f : A -> bool) (l l' : list A) :
  Permutation l l' -> existsb f l = existsb f l'.
Proof.
  induction 1 as [|x l l' _ IH|x y l|l l' l'' _ IH1 _ IH2]; simpl.
  - reflexivity.
  - rewrite IH. reflexivity.
  - destruct (f x), (f y); reflexivity.
  - rewrite IH1. exact IH2.
Qed.

Lemma tiles_sized (P : Platform) (fs : filesystem) (table : list (string * Z)) :
  Forall (fun t => size (snd t) = (TEXTURE_SIZE, TEXTURE_SIZE)) (tiles P fs table).
Proof.
  unfold tiles. apply Forall_flat_map, Forall_forall. intros entry _.
  destruct (is_sentinel entry); [constructor|].
  destruct (lookup fs (tile_path P (fst entry))) as [[im|]|]; repeat constructor.
Qed.

Lemma tiles_slots (P : Platform) (fs : filesystem) (table : list (string * Z))
    (index : Z) :
  In index (map fst (tiles P fs table)) -> In index (map snd table).
Proof.
  induction table as [|entry rest IH]; simpl; [tauto|].
  unfold tiles in *. simpl flat_map. rewrite map_app, in_app_iff.
  intros [H|H]; [left|right; apply IH, H].
  destruct (is_sentinel entry); [destruct H|].
  destruct (lookup fs (tile_path P (fst entry))) as [[im|]|]; simpl in H;
    tauto.
Qed.

Lemma tiles_nodup (P : Platform) (fs : filesystem) (table : list (string * Z)) :
  NoDup (map snd table) -> NoDup (map fst (tiles P fs table)).
Proof.
  induction table as [|entry rest IH]; simpl; intros Hnd; [constructor|].
  inversion Hnd as [|i l Hnotin Hrest]; subst.
  unfold tiles in *. simpl flat_map. 
  destruct (is_sentinel entry); [apply IH, Hrest|].
  destruct (lookup fs (tile_path P (fst entry))) as [[im|]|]; simpl;
    try (apply IH, Hrest).
  constructor; [|apply IH, Hrest].
  intros Hin. apply Hnotin. eapply tiles_slots. exact Hin.
Qed.

Lemma tiles_permutation (P : Platform) (fs : filesystem)
    (t1 t2 : list (string * Z)) :
  Permutation t1 t2 -> Permutation (tiles P fs t1) (tiles P fs t2).
Proof. intros H. unfold tiles. apply Permutation_flat_map, H. Qed.

(** Tiles of pairwise different slots give the same canvas in any order. *)
Lemma fold_paste_permutation (P : Platform) (l1 l2 : list (Z * Image)) :
  Permutation l1 l2 ->
  Forall (fun t => size (snd t) = (TEXTURE_SIZE, TEXTURE_SIZE)) l1 ->
  NoDup (map fst l1) ->
  forall a, img_eq (fold_left (paste_tile P) l1 a) (fold_left (paste_tile P) l2 a).
Proof.
  induction 1 as [|t l l' Hp IH|s t l|l l' l'' Hp1 IH1 Hp2 IH2];
    intros Hsz Hnd a.
  - apply img_eq_refl.
  - simpl. inversion Hsz; inversion Hnd; subst. apply IH; assumption.
  - simpl. apply fold_paste_img_eq.
    inversion Hsz as [|? ? Ht Hsz']; inversion Hsz' as [|? ? Hs _]; subst.
    inversion Hnd as [|? ? Hnotin _]; subst.
    apply paste_tile_swap; try assumption.
    intros Heq. apply Hnotin. left. symmetry. exact Heq.
  - eapply img_eq_trans; [apply IH1; assumption|].
    apply IH2.
    + eapply Permutation_Forall; eassumption.
    + eapply Permutation_NoDup; [apply Permutation_map; eassumption|assumption].
Qed.

(** ** Reading the same files *)

Lemma for_each_ext {A : Type} (f g : A -> M unit) (l : list A) :
  (forall x st, In x l -> f x st = g x st) ->
  forall st, for_each f l st = for_each g l st.
Proof.
  induction l as [|x l IH]; intros H st; simpl; [reflexivity|].
  unfold bind. rewrite (H x st (or_introl eq_refl)).
  destruct (g x st) as [[e|[]] st1]; [reflexivity|].
  apply IH. intros x' st' Hin. apply H. right; exact Hin.
Qed.

Lemma process_entry_agree (P : Platform) (fs1 fs2 : filesystem)
    (entry : string * Z) (st : state) :
  lookup fs1 (tile_path P (fst entry)) = lookup fs2 (tile_path P (fst entry)) ->
  process_entry P fs1 entry st = process_entry P fs2 entry st.
Proof.
  destruct entry as [name index]; simpl. intros H.
  unfold process_entry, bind, os_path_exists, Image_open, emit. rewrite H.
  reflexivity.
Qed.

Lemma run_agree (P : Platform) (table : list (string * Z)) (fs1 fs2 : filesystem) :
  same_sources P table fs1 fs2 -> run P fs1 table = run P fs2 table.
Proof.
  intros [Hl Hw]. unfold run, build, bind.
  rewrite (for_each_ext (process_entry P fs1) (process_entry P fs2) table).
  - destruct (for_each (process_entry P fs2) table initial) as [[e|[]] st];
      [reflexivity|].
    unfold atlas_save. rewrite Hw. reflexivity.
  - intros entry st Hin. apply process_entry_agree, Hl, Hin.
Qed.

(** Committing a trace only touches the paths it writes. *)
Lemma lookup_fold_commit (tr : list event) (q : string) :
  Forall (fun e => match e with Write path _ => path <> q | _ => True end) tr ->
  forall fs, lookup (fold_left commit tr fs) q = lookup fs q /\
             writable (fold_left commit tr fs) = writable fs.
Proof.
  induction tr as [|e tr IH]; intros H fs; simpl; [split; reflexivity|].
  inversion H as [|? ? He Htr]; subst.
  destruct (IH Htr (commit fs e)) as [IHl IHw]. rewrite IHl, IHw.
  destruct e; simpl; try (split; reflexivity).
  apply String.eqb_neq in He. rewrite String.eqb_sym, He. split; reflexivity.
Qed.

Lemma writable_fold_commit (tr : list event) :
  forall fs, writable (fold_left commit tr fs) = writable fs.
Proof.
  induction tr as [|e tr IH]; intros fs; simpl; [reflexivity|].
  rewrite IH. destruct e; reflexivity.
Qed.

(** A run writes nowhere but to the output file. *)
Lemma run_writes_output_only (P : Platform) (fs : filesystem)
    (table : list (string * Z)) :
  Forall (fun e => match e with Write path _ => path = OUTPUT | _ => True end)
         (trace (snd (run P fs table))).
Proof.
  eapply Forall_impl; [|apply trace_accounted].
  intros e [(entry & _ & _ & Hd)|[[im ->]| ->]]; [|reflexivity|exact I].
  destruct entry as [name index].
  destruct Hd as [->|[->|[->| ->]]]; exact I.
Qed.

Lemma output_is_final_atlas (P : Platform) (fs : filesystem)
    (table : list (string * Z)) (im : Image) :
  output (run P fs table) = Some im -> im = final_atlas (run P fs table).
Proof.
  rewrite output_run, final_atlas_loop.
  destruct (existsb (broken P fs) table) eqn:Hb; [discriminate|].
  destruct (writable fs OUTPUT); [|discriminate].
  destruct (loop_completes P fs table Hb initial) as [_ ->].
  intros H; injection H as <-. reflexivity.
Qed.

Lemma nodup_slot_owner (table : list (string * Z)) (a b : string * Z) :
  NoDup (map snd table) -> In a table -> In b table -> snd a = snd b -> a = b.
Proof.
  induction table as [|e rest IH]; simpl; intros Hnd Ha Hb Heq; [destruct Ha|].
  inversion Hnd as [|? ? Hnotin Hrest]; subst.
  destruct Ha as [->|Ha], Hb as [->|Hb]; auto.
  - exfalso. apply Hnotin. rewrite Heq. apply in_map, Hb.
  - exfalso. apply Hnotin. rewrite <- Heq. apply in_map, Ha.
Qed.

(** In a table of pairwise different slots, the cell of an entry that is
    not pasted stays blank. *)
Lemma unplaced_cell_blank (P : Platform) (fs : filesystem)
    (table : list (string * Z)) (entry : string * Z) (x y : Z) :
  NoDup (map snd table) ->
  In entry table ->
  placed P fs entry = false ->
  in_cell (snd entry) x y = true ->
  in_bounds blank_atlas x y = true ->
  pixel_at (final_atlas (run P fs table)) x y = Some transparent.
Proof.
  intros Hnd Hin Hnp Hc Hb.
  rewrite pixel_at_final by exact Hb. f_equal.
  apply uncovered_pixel. intros other Hin' Hp.
  destruct (in_cell (snd other) x y) eqn:Hc'; [|reflexivity].
  assert (other = entry).
  { apply (nodup_slot_owner table); try assumption.
    eapply in_cell_inj; eassumption. }
  subst other. congruence.
Qed.

(** ** The content of the final image *)

Lemma fold_paste_uncovered (P : Platform) (l : list (Z * Image)) (x y : Z) :
  Forall (fun t => size (snd t) = (TEXTURE_SIZE, TEXTURE_SIZE)) l ->
  (forall t, In t l -> in_cell (fst t) x y = false) ->
  forall a, pixels (fold_left (paste_tile P) l a) x y = pixels a x y.
Proof.
  induction l as [|t l IH]; intros Hsz Hfree a; simpl; [reflexivity|].
  inversion Hsz as [|? ? Ht Hl]; subst.
  rewrite IH; [|exact Hl|intros t' Hin; apply Hfree; right; exact Hin].
  rewrite pixels_paste_tile by exact Ht.
  rewrite (Hfree t (or_introl eq_refl)). reflexivity.
Qed.

Lemma fold_paste_covered (P : Platform) (l : list (Z * Image))
    (i : Z) (t : Image) (x y : Z) :
  Forall (fun t => size (snd t) = (TEXTURE_SIZE, TEXTURE_SIZE)) l ->
  NoDup (map fst l) ->
  In (i, t) l ->
  in_cell i x y = true ->
  forall a, mode t = mode a ->
  pixels (fold_left (paste_tile P) l a) x y =
  pixels t (x - fst (paste_box i)) (y - snd (paste_box i)).
Proof.
  induction l as [|t0 l IH]; intros Hsz Hnd Hin Hc a Hm; [destruct Hin|].
  inversion Hsz as [|? ? Ht Hl]; subst.
  inversion Hnd as [|? ? Hnotin Hnd']; subst.
  simpl. destruct Hin as [->|Hin].
  - rewrite fold_paste_uncovered; [|exact Hl|].
    + rewrite pixels_paste_tile by exact Ht. cbn [fst snd]. rewrite Hc.
      rewrite coerced_same_mode by exact Hm. reflexivity.
    + intros t' Hin'. destruct (in_cell (fst t') x y) eqn:Hc'; [|reflexivity].
      exfalso. apply Hnotin. cbn [fst].
      rewrite <- (in_cell_inj _ _ x y Hc' Hc). apply in_map, Hin'.
  - apply IH; try assumption.
    unfold paste_tile. rewrite mode_paste. exact Hm.
Qed.

Lemma tiles_in (P : Platform) (fs : filesystem) (table : list (string * Z))
    (name : string) (index : Z) (im : Image) :
  In (name, index) table ->
  name <> "air" ->
  lookup fs (tile_path P name) = Some (ImageFile im) ->
  In (index, texture_of P im) (tiles P fs table).
Proof.
  intros Hin Hn Hl. unfold tiles. apply in_flat_map.
  exists (name, index). split; [exact Hin|].
  rewrite (not_sentinel name index Hn). cbn [fst snd]. rewrite Hl.
  left. reflexivity.
Qed.

(** In a run that meets no undecodable file, over a table of pairwise
    different slots, the cell of every placed entry shows that entry's
    resized tile. *)
Lemma placed_cell_content (P : Platform) (fs : filesystem)
    (table : list (string * Z)) (name : string) (index : Z) (im : Image)
    (x y : Z) :
  existsb (broken P fs) table = false ->
  NoDup (map snd table) ->
  In (name, index) table ->
  name <> "air" ->
  lookup fs (tile_path P name) = Some (ImageFile im) ->
  in_cell index x y = true ->
  pixels (final_atlas (run P fs table)) x y =
  pixels (texture_of P im) (x - fst (paste_box index)) (y - snd (paste_box index)).
Proof.
  intros Hb Hnd Hin Hn Hl Hc.
  rewrite final_atlas_loop.
  destruct (loop_completes P fs table Hb initial) as [_ ->].
  apply fold_paste_covered; try assumption.
  - apply tiles_sized.
  - apply tiles_nodup, Hnd.
  - eapply tiles_in; eassumption.
  - reflexivity.
Qed.

(** ** The two end-to-end scenarios of the specification *)

Example dirt_present_console :
  console (run sample_platform sample_fs [("dirt", 2)]) =
  ["Added dirt at index 2";
   (newline ++ "Atlas saved: kenney_voxel_atlas.png (256x256)")%string].
Proof. reflexivity. Qed.

Example dirt_present_pixels :
  pixel_at (final_atlas (run sample_platform sample_fs [("dirt", 2)])) 32 0
    = Some [0; 0; 90; 255] /\
  pixel_at (final_atlas (run sample_platform sample_fs [("dirt", 2)])) 47 15
    = Some [120; 120; 90; 255] /\
  pixel_at (final_atlas (run sample_platform sample_fs [("dirt", 2)])) 31 0
    = Some transparent /\
  pixel_at (final_atlas (run sample_platform sample_fs [("dirt", 2)])) 48 0
    = Some transparent /\
  pixel_at (final_atlas (run sample_platform sample_fs [("dirt", 2)])) 32 16
    = Some transparent.
Proof. repeat split. Qed.

Example dirt_absent_console :
  console (run sample_platform empty_fs [("dirt", 2)]) =
  ["Missing: dirt";
   (newline ++ "Atlas saved: kenney_voxel_atlas.png (256x256)")%string] /\
  pixel_at (final_atlas (run sample_platform empty_fs [("dirt", 2)])) 32 0
    = Some transparent.
Proof. split; reflexivity. Qed.

Example junk_file_stops_the_run :
  fst (main sample_platform sample_fs_with_junk) =
    inl (UnidentifiedImageError (tile_path sample_platform "stone")) /\
  output (main sample_platform sample_fs_with_junk) = None.
Proof. split; reflexivity. Qed.

(** * The properties of the specification *)

(** C1 — For a slot-table entry [(name, index)] other than the sentinel
    whose source file [tile_path name] is there (as an image Pillow
    decodes), one iteration resizes the image to exactly
    [TEXTURE_SIZE] x [TEXTURE_SIZE], computes [row = index // textures_per_row]
    and [col = index % textures_per_row] with
    [textures_per_row = ATLAS_SIZE // TEXTURE_SIZE], and pastes the tile at
    pixel offset [(col * TEXTURE_SIZE, row * TEXTURE_SIZE)] of the atlas,
    reporting "Added <name> at index <index>"; index [0] maps to cell
    [(0, 0)] and index [textures_per_row * textures_per_row - 1] to the
    bottom-right cell.  In a run that meets no undecodable file, over a
    table of pairwise different slots, that cell of the final image shows
    the resized tile. *)
Theorem tile_placement (P : Platform) (fs : filesystem) (name : string)
    (index : Z) (im : Image) :
  name <> "air" ->
  lookup fs (tile_path P name) = Some (ImageFile im) ->
  let row := index / textures_per_row in
  let col := index mod textures_per_row in
  let texture :=
    Image_resize P (Image_convert P im "RGBA") (TEXTURE_SIZE, TEXTURE_SIZE) LANCZOS in
  textures_per_row = ATLAS_SIZE / TEXTURE_SIZE /\
  size texture = (TEXTURE_SIZE, TEXTURE_SIZE) /\
  (forall st,
     process_entry P fs (name, index) st =
       (inr tt,
        {| atlas := Image_paste P (atlas st) texture
                      (col * TEXTURE_SIZE, row * TEXTURE_SIZE);
           trace := trace st ++
             [Stat (tile_path P name); Open (tile_path P name);
              Print ("Added " ++ name ++ " at index " ++ str index)%string] |})) /\
  (forall table x y,
     In (name, index) table ->
     NoDup (map snd table) ->
     existsb (broken P fs) table = false ->
     col * TEXTURE_SIZE <= x < col * TEXTURE_SIZE + TEXTURE_SIZE ->
     row * TEXTURE_SIZE <= y < row * TEXTURE_SIZE + TEXTURE_SIZE ->
     pixels (final_atlas (run P fs table)) x y =
     pixels texture (x - col * TEXTURE_SIZE) (y - row * TEXTURE_SIZE)) /\
  cell 0 = (0, 0) /\
  cell (textures_per_row * textures_per_row - 1) =
    (textures_per_row - 1, textures_per_row - 1) /\
  paste_box 0 = (0, 0) /\
  paste_box (textures_per_row * textures_per_row - 1) =
    (ATLAS_SIZE - TEXTURE_SIZE, ATLAS_SIZE - TEXTURE_SIZE).
Proof.
  intros Hn Hl row col texture.
  split; [reflexivity|]. split; [reflexivity|].
  split; [|split; [|repeat split]].
  - intros st. exact (step_placed P fs name index im st Hn Hl).
  - intros table x y Hin Hnd Hb Hx Hy.
    apply (placed_cell_content P fs table name index im x y Hb Hnd Hin Hn Hl).
    apply in_cell_true. split; assumption.
Qed.

Lemma tile_placement_witness :
  ("dirt" <> "air" /\
   lookup sample_fs (tile_path sample_platform "dirt") = Some (ImageFile dirt_png)) /\
  fst (process_entry sample_platform sample_fs ("dirt", 2) initial) = inr tt /\
  pixel_at (atlas (snd (process_entry sample_platform sample_fs ("dirt", 2) initial)))
    33 1 = Some [8; 8; 90; 255] /\
  pixels (final_atlas (main sample_platform sample_fs)) 33 1 = [8; 8; 90; 255].
Proof.
  assert (Hn : "dirt" <> "air") by discriminate.
  assert (Hl : lookup sample_fs (tile_path sample_platform "dirt")
               = Some (ImageFile dirt_png)) by reflexivity.
  split; [split; assumption|].
  destruct (tile_placement sample_platform sample_fs "dirt" 2 dirt_png Hn Hl)
    as (_ & _ & Hstep & Hfinal & _).
  rewrite Hstep. split; [reflexivity|]. split; [reflexivity|].
  unfold main. rewrite (Hfinal TEXTURE_MAP 33 1).
  - reflexivity.
  - simpl; tauto.
  - simpl. repeat constructor; simpl; intuition discriminate.
  - reflexivity.
  - rewrite textures_per_row_value. unfold TEXTURE_SIZE. simpl. lia.
  - rewrite textures_per_row_value. unfold TEXTURE_SIZE. simpl. lia.
Defined.

(** C2 — For an entry other than the sentinel whose source file is not
    there, one iteration prints "Missing: <name>", leaves the atlas as it
    was and hands over to the remaining entries; the run of a table that
    holds the entry still ends without an exception and writes its canvas
    to the output file (when every file that is there decodes and the
    output is writable), and in a table of pairwise different slots the
    entry's cell is fully transparent in the final image. *)
Theorem missing_tile_skipped (P : Platform) (fs : filesystem)
    (name : string) (index : Z) :
  name <> "air" ->
  lookup fs (tile_path P name) = None ->
  (forall st rest,
     let st' := {| atlas := atlas st;
                   trace := trace st ++ [Stat (tile_path P name);
                                         Print ("Missing: " ++ name)%string] |} in
     process_entry P fs (name, index) st = (inr tt, st') /\
     for_each (process_entry P fs) ((name, index) :: rest) st =
       for_each (process_entry P fs) rest st') /\
  (forall table,
     In (name, index) table ->
     existsb (broken P fs) table = false ->
     writable fs OUTPUT = true ->
     fst (run P fs table) = inr tt /\
     output (run P fs table) = Some (final_atlas (run P fs table))) /\
  (forall table x y,
     In (name, index) table ->
     NoDup (map snd table) ->
     in_cell index x y = true -> in_bounds blank_atlas x y = true ->
     pixel_at (final_atlas (run P fs table)) x y = Some transparent).
Proof.
  intros Hn Hl.
  split; [|split].
  - intros st rest st'. split.
    + apply step_missing; assumption.
    + cbn [for_each]. unfold bind.
      rewrite (step_missing P fs name index st Hn Hl).
      reflexivity.
  - intros table Hin Hb Hw. split.
    + apply run_succeeds; assumption.
    + rewrite output_run, Hb, Hw, final_atlas_loop.
      destruct (loop_completes P fs table Hb initial) as [_ ->]. reflexivity.
  - intros table x y Hin Hnd Hc Hbd.
    apply (unplaced_cell_blank P fs table (name, index)); try assumption.
    unfold placed. simpl fst. rewrite Hl. apply andb_false_r.
Qed.

Lemma missing_tile_skipped_witness :
  fst (main sample_platform sample_fs) = inr tt /\
  In "Missing: greystone" (console (main sample_platform sample_fs)) /\
  pixel_at (final_atlas (main sample_platform sample_fs)) 16 0
    = Some transparent.
Proof.
  assert (Hin : In ("greystone", 1) TEXTURE_MAP) by (simpl; tauto).
  assert (Hn : "greystone" <> "air") by discriminate.
  destruct (missing_tile_skipped sample_platform sample_fs
              "greystone" 1 Hn eq_refl)
    as (_ & Hrun & Hcell).
  split; [exact (proj1 (Hrun TEXTURE_MAP Hin eq_refl eq_refl))|].
  split; [simpl; tauto|].
  apply (Hcell TEXTURE_MAP); [exact Hin| |reflexivity|reflexivity].
  simpl. repeat constructor; simpl; intuition discriminate.
Defined.

(** C3 — The entry named by the sentinel ["air"] is skipped before any
    file-system access: its iteration leaves the state as it was (no
    [Stat], no [Open], no diagnostic, the canvas untouched); every event
    of a run is the closing save or message or is due to an entry other
    than the sentinel, and "Missing: air" is never printed; and in a table
    of pairwise different slots the sentinel's cell is fully transparent
    in the final image. *)
Theorem sentinel_skipped (P : Platform) (fs : filesystem) :
  (forall index st, process_entry P fs ("air", index) st = (inr tt, st)) /\
  (forall table, Forall (accounted P table) (trace (snd (run P fs table)))) /\
  (forall table, ~ In (Print "Missing: air") (trace (snd (run P fs table)))) /\
  (forall table index x y,
     In ("air", index) table -> NoDup (map snd table) ->
     in_cell index x y = true -> in_bounds blank_atlas x y = true ->
     pixel_at (final_atlas (run P fs table)) x y = Some transparent).
Proof.
  split; [intros; apply step_sentinel|].
  split; [intros; apply trace_accounted|].
  split.
  - intros table Hin.
    pose proof (trace_accounted P fs table) as Hacc.
    rewrite Forall_forall in Hacc. specialize (Hacc _ Hin).
    destruct Hacc as [([name index] & _ & Hn & Hd)|[[im Hw]|Hs]];
      [|discriminate|discriminate].
    simpl in Hn.
    destruct Hd as [Hd|[Hd|[Hd|Hd]]]; try discriminate.
    apply Hn. simpl in Hd. congruence.
  - intros table index x y Hin Hnd Hc Hb.
    apply (unplaced_cell_blank P fs table ("air", index)); try assumption.
    reflexivity.
Qed.

Lemma sentinel_skipped_witness :
  process_entry sample_platform sample_fs ("air", 0) initial = (inr tt, initial) /\
  pixel_at (final_atlas (run sample_platform sample_fs TEXTURE_MAP)) 15 15
    = Some transparent.
Proof.
  destruct (sentinel_skipped sample_platform sample_fs) as (Hstep & _ & _ & Hcell).
  split; [apply Hstep|].
  apply (Hcell TEXTURE_MAP 0); [simpl; tauto| |reflexivity|reflexivity].
  simpl. repeat constructor; simpl; intuition discriminate.
Defined.

(** C4 — For a slot index in [[0, textures_per_row^2)] the cell computed
    by integer division and modulo recovers the index:
    [row * textures_per_row + col = index]. *)
Theorem index_round_trip (index row col : Z) :
  in_range index ->
  cell index = (row, col) ->
  row * textures_per_row + col = index.
Proof.
  intros _ Hc.
  pose proof (cell_div_mod index) as H. rewrite Hc in H. exact H.
Qed.

Lemma index_round_trip_witness :
  (in_range 17 /\ cell 17 = (1, 1)) /\ 1 * textures_per_row + 1 = 17.
Proof.
  assert (Hr : in_range 17) by (unfold in_range; rewrite textures_per_row_value; lia).
  split; [split; [exact Hr|reflexivity]|].
  exact (index_round_trip 17 1 1 Hr eq_refl).
Defined.

(** C5 — For a slot table that satisfies the table invariant, the image
    a run leaves on disk does not depend on the order of the entries:
    every permutation of the table yields an output with the same size and
    the same pixels (and no output exactly when the original yields
    none). *)
Theorem order_irrelevant (P : Platform) (fs : filesystem)
    (t1 t2 : list (string * Z)) :
  table_invariant t1 ->
  Permutation t1 t2 ->
  same_output (output (run P fs t1)) (output (run P fs t2)).
Proof.
  intros [Hnd _] Hp. rewrite !output_run.
  rewrite <- (existsb_permutation (broken P fs) t1 t2 Hp).
  destruct (existsb (broken P fs) t1); [exact I|].
  destruct (writable fs OUTPUT); [|exact I].
  simpl. apply img_eq_same_pixels, fold_paste_permutation.
  - apply tiles_permutation, Hp.
  - apply tiles_sized.
  - apply tiles_nodup, Hnd.
Qed.

Lemma order_irrelevant_witness :
  same_output
    (output (run sample_platform sample_fs [("air", 0); ("dirt", 2); ("ice", 17)]))
    (output (run sample_platform sample_fs [("ice", 17); ("dirt", 2); ("air", 0)])).
Proof.
  apply order_irrelevant.
  - split.
    + simpl. repeat constructor; simpl; intuition discriminate.
    + repeat (apply Forall_cons;
                [unfold in_range; rewrite textures_per_row_value; simpl; lia|]).
      apply Forall_nil.
  - apply (Permutation_rev [("air", 0); ("dirt", 2); ("ice", 17)]).
Defined.

(** C6 — The build is a function of its inputs: two file systems that
    hold the same source files (and grant the same permission on the
    output) give the same run, hence the same atlas pixel for pixel; and
    running again in the file system the first run left behind gives the
    same run once more, provided the output file is not one of the
    table's sources. *)
Theorem build_deterministic (P : Platform) (table : list (string * Z)) :
  (forall fs1 fs2,
     same_sources P table fs1 fs2 ->
     run P fs1 table = run P fs2 table /\
     output (run P fs1 table) = output (run P fs2 table)) /\
  (forall fs,
     (forall entry, In entry table -> tile_path P (fst entry) <> OUTPUT) ->
     run P (fs_after fs (run P fs table)) table = run P fs table).
Proof.
  split.
  - intros fs1 fs2 H. rewrite (run_agree P table fs1 fs2 H). split; reflexivity.
  - intros fs Hout. apply run_agree. unfold fs_after.
    pose proof (run_writes_output_only P fs table) as Hw.
    split.
    + intros entry Hin.
      apply lookup_fold_commit. eapply Forall_impl; [|exact Hw].
      intros [p|p|l|p im]; try (intros; exact I).
      intros ->. intros Heq. apply (Hout entry Hin). symmetry. exact Heq.
    + rewrite writable_fold_commit. reflexivity.
Qed.

Lemma build_deterministic_witness :
  run sample_platform
      (fs_after sample_fs (run sample_platform sample_fs TEXTURE_MAP)) TEXTURE_MAP
  = run sample_platform sample_fs TEXTURE_MAP /\
  run sample_platform (mkFs (lookup sample_fs) (fun _ => true)) TEXTURE_MAP
  = run sample_platform sample_fs TEXTURE_MAP.
Proof.
  destruct (build_deterministic sample_platform TEXTURE_MAP) as [Hsame Hagain].
  split.
  - apply Hagain. intros entry Hin Heq.
    destruct entry as [name index]. discriminate Heq.
  - apply Hsame. split; reflexivity.
Defined.

(** C7 — Before the first table entry is processed the canvas is
    [ATLAS_SIZE] x [ATLAS_SIZE], mode RGBA, every pixel [(0, 0, 0, 0)],
    and nothing has been done yet. *)
Theorem canvas_allocated :
  (forall P fs table, run P fs table = build P fs table initial) /\
  atlas initial = Image_new "RGBA" (ATLAS_SIZE, ATLAS_SIZE) [0; 0; 0; 0] /\
  trace initial = [] /\
  mode (atlas initial) = "RGBA" /\
  size (atlas initial) = (ATLAS_SIZE, ATLAS_SIZE) /\
  (forall x y, 0 <= x < ATLAS_SIZE -> 0 <= y < ATLAS_SIZE ->
     pixel_at (atlas initial) x y = Some [0; 0; 0; 0]) /\
  (forall x y, pixel_at (atlas initial) x y = None <->
     ~ (0 <= x < ATLAS_SIZE /\ 0 <= y < ATLAS_SIZE)).
Proof.
  repeat (split; [reflexivity|]).
  assert (Hb : forall x y, in_bounds (atlas initial) x y = true <->
                           0 <= x < ATLAS_SIZE /\ 0 <= y < ATLAS_SIZE).
  { intros x y. unfold in_bounds. simpl size.
    rewrite !andb_true_iff, !Z.leb_le, !Z.ltb_lt. lia. }
  split.
  - intros x y Hx Hy. unfold pixel_at.
    rewrite (proj2 (Hb x y) (conj Hx Hy)). reflexivity.
  - intros x y. unfold pixel_at. rewrite <- Hb.
    destruct (in_bounds (atlas initial) x y); split; try discriminate;
      intros H; try reflexivity; exfalso; apply H; reflexivity.
Qed.

Lemma canvas_allocated_witness :
  pixel_at (atlas initial) 255 255 = Some [0; 0; 0; 0] /\
  pixel_at (atlas initial) 256 0 = None.
Proof.
  destruct canvas_allocated as (_ & _ & _ & _ & _ & Hin & Hout).
  split.
  - apply Hin; unfold ATLAS_SIZE; lia.
  - apply Hout. unfold ATLAS_SIZE. lia.
Defined.

(** C8 — Pasting a placed tile rewrites the [TEXTURE_SIZE] x
    [TEXTURE_SIZE] cell of its slot with the tile's own pixels, alpha
    included and nothing blended, keeps every pixel outside the cell and
    the size of the canvas; hence a canvas pixel that lies in the cell of
    no placed tile is fully transparent in the final image, on disk as in
    memory. *)
Theorem paste_frame (P : Platform) (fs : filesystem) :
  (forall name index im st x y,
     name <> "air" ->
     lookup fs (tile_path P name) = Some (ImageFile im) ->
     mode (atlas st) = "RGBA" ->
     let st' := snd (process_entry P fs (name, index) st) in
     size (atlas st') = size (atlas st) /\
     pixels (atlas st') x y =
       if in_cell index x y
       then pixels (texture_of P im)
              (x - fst (paste_box index)) (y - snd (paste_box index))
       else pixels (atlas st) x y) /\
  (forall table x y,
     in_bounds blank_atlas x y = true ->
     (forall entry, In entry table -> placed P fs entry = true ->
        in_cell (snd entry) x y = false) ->
     pixel_at (final_atlas (run P fs table)) x y = Some transparent /\
     (forall im, output (run P fs table) = Some im ->
        pixel_at im x y = Some transparent)).
Proof.
  split.
  - intros name index im st x y Hn Hl Hm st'. subst st'.
    rewrite (step_placed P fs name index im st Hn Hl). cbn [snd atlas].
    split; [apply size_paste|].
    change (Image_paste P (atlas st) (texture_of P im) (paste_box index))
      with (paste_tile P (atlas st) (index, texture_of P im)).
    rewrite pixels_paste_tile by reflexivity. cbn [fst snd].
    rewrite coerced_same_mode; [reflexivity|].
    rewrite Hm. reflexivity.
  - intros table x y Hb Hfree.
    assert (Hfinal : pixel_at (final_atlas (run P fs table)) x y = Some transparent).
    { rewrite pixel_at_final by exact Hb. f_equal.
      apply uncovered_pixel, Hfree. }
    split; [exact Hfinal|].
    intros im Hout. rewrite (output_is_final_atlas P fs table im Hout).
    exact Hfinal.
Qed.

Lemma paste_frame_witness :
  pixel_at (final_atlas (run sample_platform sample_fs TEXTURE_MAP)) 48 0
    = Some transparent /\
  pixels (atlas (snd (process_entry sample_platform sample_fs ("dirt", 2) initial)))
    47 15 = pixels (texture_of sample_platform dirt_png) 15 15.
Proof.
  destruct (paste_frame sample_platform sample_fs) as [Hstep Hfinal].
  split.
  - refine (proj1 (Hfinal TEXTURE_MAP 48 0 eq_refl _)).
    intros entry Hin Hp. simpl in Hin.
    repeat (destruct Hin as [<-|Hin]; [first [discriminate Hp|reflexivity]|]).
    destruct Hin.
  - assert (Hn : "dirt" <> "air") by discriminate.
    exact (proj2 (Hstep "dirt" 2 dirt_png initial 47 15 Hn eq_refl eq_refl)).
Defined.

(** C9 — The slot table shipped with the script satisfies the table
    invariant: its indices are pairwise different and lie in
    [[0, (ATLAS_SIZE / TEXTURE_SIZE)^2)], which is [[0, 256)]. *)
Theorem TEXTURE_MAP_invariant :
  table_invariant TEXTURE_MAP /\
  (ATLAS_SIZE / TEXTURE_SIZE) * (ATLAS_SIZE / TEXTURE_SIZE) = 256 /\
  Forall (fun entry => 0 <= snd entry < 256) TEXTURE_MAP.
Proof.
  split; [split|split; [reflexivity|]].
  - simpl. repeat (apply NoDup_cons; [simpl; intuition discriminate|]).
    apply NoDup_nil.
  - repeat (apply Forall_cons;
              [unfold in_range; rewrite textures_per_row_value; simpl; lia|]).
    apply Forall_nil.
  - repeat (apply Forall_cons; [simpl; lia|]). apply Forall_nil.
Qed.

(** C10 — The canvas keeps its size [ATLAS_SIZE] x [ATLAS_SIZE]: a paste
    never changes the size of its destination; for an index of the
    table's range the pasted rectangle lies within the canvas, so nothing
    of it is clipped; and the canvas at the end of a run, and the image
    written to disk, are [ATLAS_SIZE] x [ATLAS_SIZE]. *)
Theorem canvas_size_kept (P : Platform) (fs : filesystem)
    (table : list (string * Z)) :
  (forall dst src box, size (Image_paste P dst src box) = size dst) /\
  (forall index x0 y0,
     in_range index -> paste_box index = (x0, y0) ->
     0 <= x0 /\ x0 + TEXTURE_SIZE <= ATLAS_SIZE /\
     0 <= y0 /\ y0 + TEXTURE_SIZE <= ATLAS_SIZE) /\
  (forall index x y,
     in_range index -> in_cell index x y = true ->
     in_bounds (final_atlas (run P fs table)) x y = true) /\
  size (final_atlas (run P fs table)) = (ATLAS_SIZE, ATLAS_SIZE) /\
  (forall im, output (run P fs table) = Some im ->
     size im = (ATLAS_SIZE, ATLAS_SIZE)).
Proof.
  split; [intros; apply size_paste|].
  split.
  { intros index x0 y0 Hr Hbox.
    pose proof (cell_inside index Hr) as H. rewrite Hbox in H. exact H. }
  split.
  { intros index x y Hr Hc.
    pose proof (cell_inside index Hr) as H.
    unfold in_cell in Hc. destruct (paste_box index) as [x0 y0].
    apply in_box_true in Hc. cbn [fst snd] in H.
    unfold in_bounds. rewrite final_atlas_size.
    rewrite !andb_true_iff, !Z.leb_le, !Z.ltb_lt. lia. }
  split; [apply final_atlas_size|].
  intros im Hout. rewrite (output_is_final_atlas P fs table im Hout).
  apply final_atlas_size.
Qed.

Lemma canvas_size_kept_witness :
  (0 <= 240 /\ 240 + TEXTURE_SIZE <= ATLAS_SIZE /\
   0 <= 240 /\ 240 + TEXTURE_SIZE <= ATLAS_SIZE) /\
  in_bounds (final_atlas (run sample_platform sample_fs TEXTURE_MAP)) 255 255 = true /\
  size (final_atlas (run sample_platform sample_fs TEXTURE_MAP)) = (256, 256).
Proof.
  destruct (canvas_size_kept sample_platform sample_fs TEXTURE_MAP)
    as (_ & Hbox & Hcell & Hsize & _).
  assert (Hr : in_range 255)
    by (unfold in_range; rewrite textures_per_row_value; lia).
  split; [exact (Hbox 255 240 240 Hr eq_refl)|].
  split; [exact (Hcell 255 255 255 Hr eq_refl)|exact Hsize].
Defined.

(** * Further properties of the script *)

(** ** Splitting the loop *)


Lemma step_trace (P : Platform) (fs : filesystem) (entry : string * Z)
    (st : state) :
  trace (snd (process_entry P fs entry st)) = trace st ++ entry_events P fs entry.
Proof.
  unfold entry_events, is_sentinel.
  destruct (step_cases P fs entry st) as [Ha|Hn Hl|im Hn Hl|Hn Hl]; simpl.
  - rewrite Ha. simpl. symmetry. apply app_nil_r.
  - apply String.eqb_neq in Hn. rewrite Hn, Hl. reflexivity.
  - apply String.eqb_neq in Hn. rewrite Hn, Hl. reflexivity.
  - apply String.eqb_neq in Hn. rewrite Hn, Hl. reflexivity.
Qed.

(** A loop that meets no undecodable file logs the events of its entries
    in table order. *)
Lemma loop_trace (P : Platform) (fs : filesystem) (table : list (string * Z)) :
  existsb (broken P fs) table = false ->
  forall st,
    trace (snd (for_each (process_entry P fs) table st)) =
    trace st ++ flat_map (entry_events P fs) table.
Proof.
  induction table as [|entry rest IH]; intros Hb st; simpl.
  - symmetry. apply app_nil_r.
  - simpl in Hb. apply orb_false_iff in Hb as [Hb1 Hb2].
    unfold bind. pose proof (step_trace P fs entry st) as Hst.
    destruct (step_cases P fs entry st) as [Ha|Hn Hl|im Hn Hl|Hn Hl];
      simpl in Hst |- *.
    + rewrite (IH Hb2), app_assoc, <- Hst. reflexivity.
    + rewrite (IH Hb2). cbn [trace]. rewrite Hst, app_assoc. reflexivity.
    + rewrite (IH Hb2). cbn [trace]. rewrite Hst, app_assoc. reflexivity.
    + unfold broken, is_sentinel in Hb1. apply String.eqb_neq in Hn.
      rewrite Hn, Hl in Hb1. discriminate.
Qed.


Lemma mode_fold_paste (P : Platform) (l : list (Z * Image)) :
  forall a, mode (fold_left (paste_tile P) l a) = mode a.
Proof.
  induction l as [|t l IH]; intros a; simpl; [reflexivity|].
  rewrite IH. apply mode_paste.
Qed.

Lemma tiles_app (P : Platform) (fs : filesystem) (t1 t2 : list (string * Z)) :
  tiles P fs (t1 ++ t2) = tiles P fs t1 ++ tiles P fs t2.
Proof. unfold tiles. apply flat_map_app. Qed.

Lemma tiles_placed (P : Platform) (fs : filesystem) (table : list (string * Z))
    (t : Z * Image) :
  In t (tiles P fs table) ->
  exists entry, In entry table /\ placed P fs entry = true /\ snd entry = fst t.
Proof.
  unfold tiles. rewrite in_flat_map. intros (entry & Hin & Ht).
  exists entry. split; [exact Hin|]. unfold placed.
  destruct (is_sentinel entry); [destruct Ht|].
  destruct (lookup fs (tile_path P (fst entry))) as [[im|]|]; simpl in Ht;
    try tauto.
  destruct Ht as [<-|[]]. split; reflexivity.
Qed.

Lemma run_success_iff (P : Platform) (fs : filesystem) (table : list (string * Z)) :
  fst (run P fs table) = inr tt <->
  existsb (broken P fs) table = false /\ writable fs OUTPUT = true.
Proof.
  split; [|intros [Hb Hw]; apply run_succeeds; assumption].
  rewrite run_unfold. intros H.
  destruct (existsb (broken P fs) table) eqn:Hb.
  - destruct (loop_crashes P fs table Hb initial) as [e He].
    destruct (for_each (process_entry P fs) table initial) as [[e'|[]] st];
      simpl in *; discriminate.
  - destruct (for_each (process_entry P fs) table initial) as [[e'|[]] st];
      simpl in *; [discriminate|].
    destruct (writable fs OUTPUT); [split; reflexivity|discriminate].
Qed.

Lemma lines_app (a b : list event) : lines (a ++ b) = lines a ++ lines b.
Proof. unfold lines. apply flat_map_app. Qed.

Lemma lines_flat_map {A : Type} (f : A -> list event) (l : list A) :
  lines (flat_map f l) = flat_map (fun x => lines (f x)) l.
Proof.
  induction l as [|x l IH]; simpl; [reflexivity|].
  rewrite lines_app, IH. reflexivity.
Qed.

Lemma for_each_without_sentinel (P : Platform) (fs : filesystem)
    (table : list (string * Z)) :
  forall st,
    for_each (process_entry P fs)
      (filter (fun entry => negb (is_sentinel entry)) table) st =
    for_each (process_entry P fs) table st.
Proof.
  induction table as [|[name index] rest IH]; intros st; [reflexivity|].
  cbn [filter]. unfold is_sentinel at 1. cbn [fst].
  destruct (String.eqb_spec name "air") as [->|Hn]; cbn [negb for_each].
  - unfold bind. rewrite step_sentinel. apply IH.
  - unfold bind.
    destruct (process_entry P fs (name, index) st) as [[e|[]] st1];
      [reflexivity|apply IH].
Qed.

(** ** What a run leaves behind *)







(** X4 — In a run that ends without an exception the trace is the
    concatenation, in table order, of the events of each entry, followed
    by the single write of the canvas and the closing message; so the
    console shows one line per entry other than the sentinel, in table
    order, and the closing message last. *)
Theorem trace_in_table_order (P : Platform) (fs : filesystem)
    (table : list (string * Z)) :
  existsb (broken P fs) table = false ->
  writable fs OUTPUT = true ->
  trace (snd (run P fs table)) =
    flat_map (entry_events P fs) table ++
    [Write OUTPUT (final_atlas (run P fs table)); Print summary_line] /\
  console (run P fs table) =
    flat_map (fun entry =>
      if is_sentinel entry then []
      else match lookup fs (tile_path P (fst entry)) with
           | None => ["Missing: " ++ fst entry]%string
           | Some _ => ["Added " ++ fst entry ++ " at index " ++ str (snd entry)]%string
           end) table ++ [summary_line] /\
  List.length (console (run P fs table)) =
    S (List.length (filter (fun entry => negb (is_sentinel entry)) table)).
Proof.
  intros Hb Hw.
  assert (Htr : trace (snd (run P fs table)) =
    flat_map (entry_events P fs) table ++
    [Write OUTPUT (final_atlas (run P fs table)); Print summary_line]).
  { rewrite final_atlas_loop, run_unfold.
    destruct (loop_completes P fs table Hb initial) as [Hok _].
    pose proof (loop_trace P fs table Hb initial) as Hl.
    destruct (for_each (process_entry P fs) table initial) as [[e|[]] st];
      simpl in *; [discriminate|].
    rewrite Hw. simpl. rewrite Hl. reflexivity. }
  assert (Hlines : forall entry, In entry table ->
    lines (entry_events P fs entry) =
    if is_sentinel entry then []
    else match lookup fs (tile_path P (fst entry)) with
         | None => ["Missing: " ++ fst entry]%string
         | Some _ => ["Added " ++ fst entry ++ " at index " ++ str (snd entry)]%string
         end).
  { intros entry Hin. unfold entry_events.
    destruct (is_sentinel entry) eqn:Hs; [reflexivity|].
    destruct (lookup fs (tile_path P (fst entry))) as [[im|]|] eqn:Hl;
      try reflexivity.
    exfalso.
    assert (Hex : existsb (broken P fs) table = true).
    { apply existsb_exists. exists entry. split; [exact Hin|].
      unfold broken. rewrite Hs, Hl. reflexivity. }
    congruence. }
  assert (Hcon : console (run P fs table) =
    flat_map (fun entry =>
      if is_sentinel entry then []
      else match lookup fs (tile_path P (fst entry)) with
           | None => ["Missing: " ++ fst entry]%string
           | Some _ => ["Added " ++ fst entry ++ " at index " ++ str (snd entry)]%string
           end) table ++ [summary_line]).
  { unfold console. fold (lines (trace (snd (run P fs table)))).
    rewrite Htr, lines_app, lines_flat_map. f_equal.
    clear Htr. induction table as [|entry rest IH]; simpl; [reflexivity|].
    simpl in Hb. apply orb_false_iff in Hb as [_ Hb2].
    rewrite (Hlines entry (or_introl eq_refl)). f_equal.
    apply IH; [exact Hb2|]. intros x Hx. apply Hlines. right; exact Hx. }
  split; [exact Htr|]. split; [exact Hcon|].
  rewrite Hcon, List.length_app, Nat.add_comm. simpl. f_equal.
  clear. induction table as [|entry rest IH]; simpl; [reflexivity|].
  rewrite List.length_app, IH.
  destruct (is_sentinel entry); simpl; [reflexivity|].
  destruct (lookup fs (tile_path P (fst entry))); reflexivity.
Qed.

Lemma trace_in_table_order_witness :
  List.length (console (main sample_platform sample_fs)) = 18%nat /\
  trace (snd (run sample_platform sample_fs [("air", 0); ("dirt", 2); ("ice", 17)])) =
    [Stat (tile_path sample_platform "dirt"); Open (tile_path sample_platform "dirt");
     Print "Added dirt at index 2";
     Stat (tile_path sample_platform "ice"); Print "Missing: ice";
     Write OUTPUT
       (final_atlas (run sample_platform sample_fs [("air", 0); ("dirt", 2); ("ice", 17)]));
     Print summary_line].
Proof.
  split.
  - exact (proj2 (proj2 (trace_in_table_order sample_platform sample_fs TEXTURE_MAP
                           eq_refl eq_refl))).
  - exact (proj1 (trace_in_table_order sample_platform sample_fs
                    [("air", 0); ("dirt", 2); ("ice", 17)] eq_refl eq_refl)).
Defined.

(** X5 — Entries named by the sentinel have no effect at all: striking
    them from the table gives the very same run (result, canvas and
    trace). *)
Theorem sentinel_entries_removable (P : Platform) (fs : filesystem)
    (table : list (string * Z)) :
  run P fs (filter (fun entry => negb (is_sentinel entry)) table) = run P fs table.
Proof.
  unfold run, build, bind at 1 3.
  rewrite for_each_without_sentinel. reflexivity.
Qed.

(** ** Slots and pixels *)





(** X7 — The cells of the indices [0 .. 255] tile the canvas: every
    pixel of the canvas lies in the cell of exactly one index, namely
    [(y // 16) * 16 + x // 16], and that index is in range; conversely
    the index [row * 16 + col] with [0 <= col < 16] is the one whose cell
    is [(row, col)]. *)
Theorem cells_tile_the_canvas (x y : Z) :
  0 <= x < ATLAS_SIZE -> 0 <= y < ATLAS_SIZE ->
  in_range (slot_of_pixel x y) /\
  in_cell (slot_of_pixel x y) x y = true /\
  (forall index, in_cell index x y = true -> index = slot_of_pixel x y) /\
  (forall row col, 0 <= col < textures_per_row ->
     cell (row * textures_per_row + col) = (row, col)).
Proof.
  intros Hx Hy.
  assert (Hcell : forall row col, 0 <= col < textures_per_row ->
            cell (row * textures_per_row + col) = (row, col)).
  { intros row col Hc. unfold cell. rewrite textures_per_row_value in *.
    f_equal.
    - rewrite Z.add_comm, Z.div_add by lia. rewrite Z.div_small by lia. lia.
    - rewrite Z.add_comm, Z.mod_add by lia. apply Z.mod_small. lia. }
  assert (Hq : 0 <= x / TEXTURE_SIZE < textures_per_row).
  { rewrite textures_per_row_value. unfold TEXTURE_SIZE, ATLAS_SIZE in *.
    split; [apply Z.div_pos; lia|apply Z.div_lt_upper_bound; lia]. }
  assert (Hr : 0 <= y / TEXTURE_SIZE < textures_per_row).
  { rewrite textures_per_row_value. unfold TEXTURE_SIZE, ATLAS_SIZE in *.
    split; [apply Z.div_pos; lia|apply Z.div_lt_upper_bound; lia]. }
  assert (Hin : in_cell (slot_of_pixel x y) x y = true).
  { apply in_cell_true. unfold slot_of_pixel. rewrite (Hcell _ _ Hq).
    cbn [fst snd]. unfold TEXTURE_SIZE.
    pose proof (Z.div_mod x 16 ltac:(lia)).
    pose proof (Z.mod_pos_bound x 16 ltac:(lia)).
    pose proof (Z.div_mod y 16 ltac:(lia)).
    pose proof (Z.mod_pos_bound y 16 ltac:(lia)). lia. }
  split; [|split; [exact Hin|split; [|exact Hcell]]].
  - unfold in_range, slot_of_pixel. rewrite textures_per_row_value in *. lia.
  - intros index Hc. eapply in_cell_inj; eassumption.
Qed.

Lemma cells_tile_the_canvas_witness :
  in_range (slot_of_pixel 255 255) /\ in_cell 255 255 255 = true /\
  cell (15 * textures_per_row + 15) = (15, 15).
Proof.
  destruct (cells_tile_the_canvas 255 255) as (Hr & Hc & _ & Hcell);
    [unfold ATLAS_SIZE; lia|unfold ATLAS_SIZE; lia|].
  split; [exact Hr|]. split; [exact Hc|].
  apply Hcell. rewrite textures_per_row_value. lia.
Defined.

(** X8 — When several placed entries share a slot, the one latest in the
    table wins: in a run that meets no undecodable file, the cell of a
    placed entry shows that entry's tile as soon as no placed entry
    behind it in the table has the same index, whatever came before. *)
Theorem last_tile_on_a_slot_wins (P : Platform) (fs : filesystem)
    (pre post : list (string * Z)) (name : string) (index : Z) (im : Image)
    (x y : Z) :
  existsb (broken P fs) (pre ++ (name, index) :: post) = false ->
  name <> "air" ->
  lookup fs (tile_path P name) = Some (ImageFile im) ->
  (forall entry, In entry post -> placed P fs entry = true -> snd entry <> index) ->
  in_cell index x y = true ->
  pixels (final_atlas (run P fs (pre ++ (name, index) :: post))) x y =
  pixels (texture_of P im) (x - fst (paste_box index)) (y - snd (paste_box index)).
Proof.
  intros Hb Hn Hl Hlast Hc.
  rewrite final_atlas_loop.
  destruct (loop_completes P fs _ Hb initial) as [_ ->].
  rewrite tiles_app, fold_left_app.
  assert (Hhere : tiles P fs ((name, index) :: post) =
                  (index, texture_of P im) :: tiles P fs post).
  { unfold tiles. cbn [flat_map]. rewrite (not_sentinel name index Hn).
    cbn [fst snd]. rewrite Hl. reflexivity. }
  rewrite Hhere. cbn [fold_left].
  rewrite fold_paste_uncovered.
  - rewrite pixels_paste_tile by reflexivity. cbn [fst snd]. rewrite Hc.
    rewrite coerced_same_mode; [reflexivity|].
    rewrite mode_fold_paste. reflexivity.
  - apply tiles_sized.
  - intros t Ht. destruct (tiles_placed P fs post t Ht) as (entry & Hin & Hp & Hs).
    destruct (in_cell (fst t) x y) eqn:Hc'; [|reflexivity].
    exfalso. apply (Hlast entry Hin Hp). rewrite Hs.
    eapply in_cell_inj; eassumption.
Qed.

Lemma last_tile_on_a_slot_wins_witness :
  pixels (final_atlas (run sample_platform two_tiles_fs
                         ([("dirt", 2)] ++ ("sand", 2) :: [("ice", 17)]))) 33 1
  = [200; 180; 8; 255] /\
  pixels (final_atlas (run sample_platform two_tiles_fs
                         ([("sand", 2)] ++ ("dirt", 2) :: [("ice", 17)]))) 33 1
  = [8; 8; 90; 255].
Proof.
  split.
  - rewrite (last_tile_on_a_slot_wins sample_platform two_tiles_fs
               [("dirt", 2)] [("ice", 17)] "sand" 2 sand_png 33 1).
    + reflexivity.
    + reflexivity.
    + discriminate.
    + reflexivity.
    + intros entry [<-|[]] Hp. discriminate Hp.
    + reflexivity.
  - rewrite (last_tile_on_a_slot_wins sample_platform two_tiles_fs
               [("sand", 2)] [("ice", 17)] "dirt" 2 dirt_png 33 1).
    + reflexivity.
    + reflexivity.
    + discriminate.
    + reflexivity.
    + intros entry [<-|[]] Hp. discriminate Hp.
    + reflexivity.
Defined.

(** ** The file system after a run *)

Lemma run_trace (P : Platform) (fs : filesystem) (table : list (string * Z)) :
  fst (run P fs table) = inr tt ->
  trace (snd (run P fs table)) =
  flat_map (entry_events P fs) table ++
  [Write OUTPUT (final_atlas (run P fs table)); Print summary_line].
Proof.
  intros Hok. apply run_success_iff in Hok as [Hb Hw].
  rewrite final_atlas_loop, run_unfold.
  destruct (loop_completes P fs table Hb initial) as [Hok _].
  pose proof (loop_trace P fs table Hb initial) as Hl.
  destruct (for_each (process_entry P fs) table initial) as [[e|[]] st];
    simpl in *; [discriminate|].
  rewrite Hw. simpl. rewrite Hl. reflexivity.
Qed.




(** X9 — With none of the table's files in place (an empty tile
    directory, or an empty table) nothing is ever opened, the canvas stays
    the blank canvas, and that blank canvas is what is saved; if the
    output is not writable the run fails on the save. *)
Theorem nothing_to_paste (P : Platform) (fs : filesystem)
    (table : list (string * Z)) :
  (forall entry, In entry table -> fst entry <> "air" ->
     lookup fs (tile_path P (fst entry)) = None) ->
  final_atlas (run P fs table) = blank_atlas /\
  Forall (fun ev => match ev with Open _ => False | _ => True end)
         (trace (snd (run P fs table))) /\
  (writable fs OUTPUT = true ->
     fst (run P fs table) = inr tt /\ output (run P fs table) = Some blank_atlas) /\
  (writable fs OUTPUT = false ->
     fst (run P fs table) = inl (PermissionError OUTPUT)).
Proof.
  intros Hnone.
  assert (Hb : existsb (broken P fs) table = false).
  { destruct (existsb (broken P fs) table) eqn:Hb; [|reflexivity].
    apply existsb_exists in Hb as (entry & Hin & Hbr).
    unfold broken, is_sentinel in Hbr. apply andb_true_iff in Hbr as [Hs Hl].
    rewrite (Hnone entry Hin) in Hl; [discriminate|].
    apply String.eqb_neq, negb_true_iff, Hs. }
  assert (Hblank : final_atlas (run P fs table) = blank_atlas).
  { apply (final_atlas_keeps P fs (fun a => a = blank_atlas)); [reflexivity|].
    intros entry st Hin Hs.
    destruct (step_cases P fs entry st) as [Ha|Hn Hl|im Hn Hl|Hn Hl];
      simpl; try exact Hs.
    rewrite (Hnone entry Hin Hn) in Hl. discriminate. }
  assert (Hloop : Forall (fun ev => match ev with Open _ => False | _ => True end)
            (trace (snd (for_each (process_entry P fs) table initial)))).
  { apply (for_each_keeps P fs
             (fun s => Forall (fun ev => match ev with Open _ => False | _ => True end)
                              (trace s))); [|constructor].
    intros entry st Hin Hs.
    destruct (step_cases P fs entry st) as [Ha|Hn Hl|im Hn Hl|Hn Hl];
      simpl; try exact Hs;
      try (rewrite (Hnone entry Hin Hn) in Hl; discriminate).
    apply Forall_app. split; [exact Hs|repeat constructor]. }
  split; [exact Hblank|]. split; [|split].
  - rewrite run_unfold.
    destruct (for_each (process_entry P fs) table initial) as [[e|[]] st];
      simpl in *; [exact Hloop|].
    destruct (writable fs OUTPUT); simpl; [|exact Hloop].
    apply Forall_app. split; [exact Hloop|repeat constructor].
  - intros Hw.
    pose proof (run_succeeds P fs table Hb Hw) as Hok.
    split; [exact Hok|].
    rewrite output_run, Hb, Hw. f_equal.
    rewrite final_atlas_loop in Hblank.
    destruct (loop_completes P fs table Hb initial) as [_ Hat].
    rewrite Hat in Hblank. exact Hblank.
  - intros Hw. rewrite run_unfold.
    destruct (loop_completes P fs table Hb initial) as [Hok _].
    destruct (for_each (process_entry P fs) table initial) as [[e|[]] st];
      simpl in *; [discriminate|].
    rewrite Hw. reflexivity.
Qed.

Lemma nothing_to_paste_witness :
  final_atlas (main sample_platform empty_fs) = blank_atlas /\
  output (main sample_platform empty_fs) = Some blank_atlas /\
  output (run sample_platform sample_fs []) = Some blank_atlas.
Proof.
  destruct (nothing_to_paste sample_platform empty_fs TEXTURE_MAP)
    as (Hblank & _ & Hsave & _); [reflexivity|].
  destruct (nothing_to_paste sample_platform sample_fs [])
    as (_ & _ & Hsave' & _); [intros entry []|].
  split; [exact Hblank|].
  split; [exact (proj2 (Hsave eq_refl))|exact (proj2 (Hsave' eq_refl))].
Defined.



(** ** Where the pixels come from *)

(** X11 — Whatever the table and the file system, and whether or not the
    run ends with an exception, every pixel of the canvas is either the
    transparent pixel or the pixel of the resized tile of some placed
    table entry whose cell contains it, at the matching offset; and the
    canvas stays in mode RGBA. *)
Theorem pixel_provenance (P : Platform) (fs : filesystem)
    (table : list (string * Z)) (x y : Z) :
  mode (final_atlas (run P fs table)) = "RGBA" /\
  (pixels (final_atlas (run P fs table)) x y = transparent \/
   exists name index im,
     In (name, index) table /\ name <> "air" /\
     lookup fs (tile_path P name) = Some (ImageFile im) /\
     in_cell index x y = true /\
     pixels (final_atlas (run P fs table)) x y =
     pixels (texture_of P im) (x - fst (paste_box index)) (y - snd (paste_box index))).
Proof.
  apply (final_atlas_keeps P fs (fun a =>
    mode a = "RGBA" /\
    (pixels a x y = transparent \/
     exists name index im,
       In (name, index) table /\ name <> "air" /\
       lookup fs (tile_path P name) = Some (ImageFile im) /\
       in_cell index x y = true /\
       pixels a x y =
       pixels (texture_of P im) (x - fst (paste_box index)) (y - snd (paste_box index))))).
  - split; [reflexivity|left; reflexivity].
  - intros [name index] st Hin [Hm Hs].
    destruct (step_cases P fs (name, index) st) as [Ha|Hn Hl|im Hn Hl|Hn Hl];
      cbn [fst snd atlas] in *; try (split; assumption).
    split; [unfold paste_tile; rewrite mode_paste; exact Hm|].
    rewrite pixels_paste_tile by reflexivity. cbn [fst snd].
    destruct (in_cell index x y) eqn:Hc; [|exact Hs].
    right. exists name, index, im.
    repeat (split; [assumption|]).
    rewrite coerced_same_mode; [reflexivity|]. rewrite Hm. reflexivity.
Qed.

(** ** Reordering and the console *)

(** X12 — In a run that ends without an exception, reordering the table
    reorders the diagnostics and nothing more: the console of the
    permuted table is a permutation of the console of the original, with
    the closing message last in both. *)
Theorem diagnostics_permuted (P : Platform) (fs : filesystem)
    (t1 t2 : list (string * Z)) :
  Permutation t1 t2 ->
  fst (run P fs t1) = inr tt ->
  fst (run P fs t2) = inr tt /\
  Permutation (console (run P fs t1)) (console (run P fs t2)) /\
  last (console (run P fs t1)) ""%string = summary_line /\
  last (console (run P fs t2)) ""%string = summary_line.
Proof.
  intros Hp Hok1.
  assert (Hok2 : fst (run P fs t2) = inr tt).
  { apply run_success_iff. apply run_success_iff in Hok1 as [Hb Hw].
    split; [|exact Hw].
    rewrite <- (existsb_permutation (broken P fs) t1 t2 Hp). exact Hb. }
  assert (Hcon : forall t, fst (run P fs t) = inr tt ->
            console (run P fs t) =
            flat_map (fun entry => lines (entry_events P fs entry)) t ++ [summary_line]).
  { intros t Hok. unfold console. fold (lines (trace (snd (run P fs t)))).
    rewrite (run_trace P fs t Hok), lines_app, lines_flat_map. reflexivity. }
  rewrite (Hcon t1 Hok1), (Hcon t2 Hok2).
  split; [exact Hok2|]. split.
  - apply Permutation_app_tail, Permutation_flat_map, Hp.
  - split; apply last_last.
Qed.

Lemma diagnostics_permuted_witness :
  Permutation
    (console (run sample_platform sample_fs [("air", 0); ("dirt", 2); ("ice", 17)]))
    (console (run sample_platform sample_fs [("ice", 17); ("dirt", 2); ("air", 0)])).
Proof.
  apply (diagnostics_permuted sample_platform sample_fs
           [("air", 0); ("dirt", 2); ("ice", 17)]
           [("ice", 17); ("dirt", 2); ("air", 0)]).
  - apply (Permutation_rev [("air", 0); ("dirt", 2); ("ice", 17)]).
  - reflexivity.
Defined.

Lemma pixel_provenance_witness :
  pixels (final_atlas (main sample_platform sample_fs)) 33 1 = transparent \/
  exists name index im,
    In (name, index) TEXTURE_MAP /\ name <> "air" /\
    lookup sample_fs (tile_path sample_platform name) = Some (ImageFile im) /\
    in_cell index 33 1 = true /\
    pixels (final_atlas (main sample_platform sample_fs)) 33 1 =
    pixels (texture_of sample_platform im)
      (33 - fst (paste_box index)) (1 - snd (paste_box index)).
Proof.
  exact (proj2 (pixel_provenance sample_platform sample_fs TEXTURE_MAP 33 1)).
Defined.
